(** * Viewer session of site/app.js

    A shallow embedding of the client-side viewer of the PDF portfolio site
    ([src/site/app.js]).  The module-level objects [current] and [els] become
    the records [Current] and [Els]; the pdf.js worker option
    [GlobalWorkerOptions.workerSrc] and the cancellation flags of the render
    tasks are part of the state as well.

    The two async functions [renderPage] and [loadPdf] are cut at their
    [await]s.  A suspended call is a list of [Frame]s (top first): the top
    frame waits for a backend promise, the frames below it wait for their
    callee.  A run is a sequence of [Event]s: user clicks start new async
    calls, [Resolve] settles the backend promise a call waits for (with the
    outcome chosen by the environment) and [Resume] delivers the completion
    of a finished callee to its caller, as the microtask queue does. *)

From Stdlib Require Import List ZArith String Ascii Bool Lia DecimalString.
Import ListNotations.
Open Scope string_scope.

(** ** Values *)

(** Template literals print JS numbers in decimal. *)
Definition js_number (z : Z) : string := NilZero.string_of_int (Z.to_int z).

(** [encodeURIComponent] on the UTF-8 bytes of a string: the unreserved
    characters stay, every other byte becomes [%XY] (upper-case hex). *)
Definition hex_digit (n : nat) : ascii :=
  match n with
  | 0 => "0" | 1 => "1" | 2 => "2" | 3 => "3" | 4 => "4" | 5 => "5"
  | 6 => "6" | 7 => "7" | 8 => "8" | 9 => "9" | 10 => "A" | 11 => "B"
  | 12 => "C" | 13 => "D" | 14 => "E" | _ => "F"
  end%char.

Definition uri_unreserved (c : ascii) : bool :=
  let n := nat_of_ascii c in
  (Nat.leb 48 n && Nat.leb n 57) || (Nat.leb 65 n && Nat.leb n 90)
  || (Nat.leb 97 n && Nat.leb n 122)
  || existsb (fun d => Ascii.eqb c d) ["-"; "_"; "."; "!"; "~"; "*"; "'"; "("; ")"]%char.

Fixpoint encodeURIComponent (s : string) : string :=
  match s with
  | EmptyString => EmptyString
  | String c rest =>
      if uri_unreserved c then String c (encodeURIComponent rest)
      else
        let n := nat_of_ascii c in
        String "%" (String (hex_digit (Nat.div n 16))
          (String (hex_digit (Nat.modulo n 16)) (encodeURIComponent rest)))
  end.

(** A manifest entry ([PDF_LIST] item). *)
Record Item := mkItem { title : string; fileName : string }.

(** A decoded document ([PDFDocumentProxy]); [doc_id] tells documents apart. *)
Record PDFDocument := mkDoc { doc_id : nat; numPages : Z }.

(** A page proxy, seen through [page.getViewport({ scale: 1.25 })]: the
    viewport's width and height, already passed through [Math.floor]. *)
Record PDFPage := mkPage { vp_width : Z; vp_height : Z }.

(** A rejection value; the code only looks at its [name]. *)
Record Err := mkErr { name : string; cause : nat }.

Definition RenderingCancelledException : string := "RenderingCancelledException".

Definition is_cancelled_exception (e : Err) : bool :=
  String.eqb (name e) RenderingCancelledException.

Definition LOCAL_WORKER : string := "./vendor/pdfjs/pdf.worker.min.mjs".
Definition CDN_WORKER : string :=
  "https://cdn.jsdelivr.net/npm/pdfjs-dist@4.10.38/build/pdf.worker.min.mjs".

(** ** State *)

(** [let current = { doc, item, page, pages, renderTask }]; a render task is
    named by its index in [tasks]. *)
Record Current := mkCurrent {
  doc : option PDFDocument;
  item : option Item;
  page : Z;
  pages : Z;
  renderTask : option nat
}.

(** The DOM properties the code writes ([els]). [canvas_image] is what the
    canvas shows: the document id and page number of the last completed
    rasterization, [None] for a blank bitmap. *)
Record Els := mkEls {
  status_text : string;
  prev_disabled : bool;
  next_disabled : bool;
  download_disabled : bool;
  indicator_text : string;
  title_text : string;
  meta_text : string;
  download_href : string;
  canvas_width : Z;
  canvas_height : Z;
  canvas_image : option (nat * Z)
}.

Inductive Attempt := FirstTry | Retry.

(** Completion of an async call. *)
Inductive Completion := Normal | Throw (e : Err).

Inductive Frame :=
  (* a finished callee whose completion is not yet delivered *)
  | Ret (r : Completion)
  (* [renderPage]: awaiting [doc.getPage(pageNum)] *)
  | RP_getPage (d : PDFDocument) (pageNum : Z)
  (* [renderPage]: awaiting [task.promise] *)
  | RP_task (task : nat) (d : PDFDocument) (pageNum : Z)
  (* [loadPdf]: awaiting [getDocument(url).promise], requested with [worker] *)
  | LP_load (a : Attempt) (url : string) (worker : string)
  (* [loadPdf]: awaiting [renderPage(1)] *)
  | LP_render (a : Attempt)
  (* the event listener that made the call *)
  | Handler.

Record State := mkState {
  current : Current;
  els : Els;
  workerSrc : string;
  (* cancellation flag of every render task created so far *)
  tasks : list bool;
  (* console.warn / console.error *)
  console : list (string * Err);
  (* promise rejections nobody handles *)
  uncaught : list Err;
  threads : list (list Frame)
}.

Definition with_current (s : State) (c : Current) : State :=
  mkState c (els s) (workerSrc s) (tasks s) (console s) (uncaught s) (threads s).
Definition with_els (s : State) (e : Els) : State :=
  mkState (current s) e (workerSrc s) (tasks s) (console s) (uncaught s) (threads s).
Definition with_workerSrc (s : State) (w : string) : State :=
  mkState (current s) (els s) w (tasks s) (console s) (uncaught s) (threads s).
Definition with_tasks (s : State) (t : list bool) : State :=
  mkState (current s) (els s) (workerSrc s) t (console s) (uncaught s) (threads s).
Definition log (s : State) (level : string) (e : Err) : State :=
  mkState (current s) (els s) (workerSrc s) (tasks s) ((level, e) :: console s)
    (uncaught s) (threads s).
Definition with_uncaught (s : State) (u : list Err) : State :=
  mkState (current s) (els s) (workerSrc s) (tasks s) (console s) u (threads s).
Definition with_threads (s : State) (th : list (list Frame)) : State :=
  mkState (current s) (els s) (workerSrc s) (tasks s) (console s) (uncaught s) th.

(** ** Helpers of app.js *)

(** [setStatus(msg)]: [els.status.textContent = msg || ''] *)
Definition setStatus (s : State) (msg : string) : State :=
  let e := els s in
  with_els s (mkEls msg (prev_disabled e) (next_disabled e) (download_disabled e)
    (indicator_text e) (title_text e) (meta_text e) (download_href e)
    (canvas_width e) (canvas_height e) (canvas_image e)).

(** [setControlsEnabled(enabled)] *)
Definition setControlsEnabled (s : State) (enabled : bool) : State :=
  let e := els s in
  with_els s (mkEls (status_text e) (negb enabled) (negb enabled) (negb enabled)
    (indicator_text e) (title_text e) (meta_text e) (download_href e)
    (canvas_width e) (canvas_height e) (canvas_image e)).

Definition page_indicator (page pages : Z) : string :=
  "Page " ++ js_number page ++ " / " ++ js_number pages.

(** [updatePager()] *)
Definition updatePager (s : State) : State :=
  let c := current s in
  let e := els s in
  let has_doc := match doc c with Some _ => true | None => false end in
  with_els s (mkEls (status_text e)
    (negb (has_doc && Z.gtb (page c) 1))
    (negb (has_doc && Z.ltb (page c) (pages c)))
    (download_disabled e)
    (if has_doc then page_indicator (page c) (pages c) else "—")
    (title_text e) (meta_text e) (download_href e)
    (canvas_width e) (canvas_height e) (canvas_image e)).

Fixpoint set_nth {A} (l : list A) (n : nat) (x : A) : list A :=
  match l, n with
  | [], _ => []
  | _ :: t, O => x :: t
  | h :: t, S n' => h :: set_nth t n' x
  end.

(** [task.cancel()] of pdf.js: flags the task; its promise then rejects with
    a [RenderingCancelledException]. *)
Definition cancel (flags : list bool) (t : nat) : list bool := set_nth flags t true.

(** [if (current.renderTask) current.renderTask.cancel()] (the [try] around
    it only guards against a throwing [cancel], which flagging never does). *)
Definition cancel_in_flight (s : State) : State :=
  with_tasks s (match renderTask (current s) with
                | Some t => cancel (tasks s) t
                | None => tasks s
                end).

Definition task_cancelled (s : State) (t : nat) : bool := nth t (tasks s) false.

Definition set_page (s : State) (n : Z) : State :=
  let c := current s in
  with_current s (mkCurrent (doc c) (item c) n (pages c) (renderTask c)).

(** ** renderPage *)

(** The synchronous part of [renderPage(pageNum)], up to its first [await];
    returns the frames of the call. *)
Definition renderPage (s : State) (pageNum : Z) : State * list Frame :=
  match doc (current s) with
  | None => (s, [Ret Normal])
  | Some d =>
      let s1 := cancel_in_flight s in
      let s2 := setStatus (updatePager (set_page s1 pageNum)) "Rendering…" in
      (s2, [RP_getPage d pageNum])
  end.

(** After [doc.getPage(pageNum)] resolved with [pg]: size the canvas (which
    clears its bitmap), start [page.render] and store the task. *)
Definition renderPage_got_page (s : State) (d : PDFDocument) (pageNum : Z)
    (pg : PDFPage) : State * list Frame :=
  let e := els s in
  let s1 := with_els s (mkEls (status_text e) (prev_disabled e) (next_disabled e)
              (download_disabled e) (indicator_text e) (title_text e) (meta_text e)
              (download_href e) (vp_width pg) (vp_height pg) None) in
  let t := List.length (tasks s1) in
  let s2 := with_tasks s1 (tasks s1 ++ [false])%list in
  let c := current s2 in
  let s3 := with_current s2 (mkCurrent (doc c) (item c) (page c) (pages c) (Some t)) in
  (s3, [RP_task t d pageNum]).

(** The rasterization of a task drew the page into the canvas. *)
Definition draw (s : State) (d : PDFDocument) (pageNum : Z) : State :=
  let e := els s in
  with_els s (mkEls (status_text e) (prev_disabled e) (next_disabled e)
    (download_disabled e) (indicator_text e) (title_text e) (meta_text e)
    (download_href e) (canvas_width e) (canvas_height e)
    (Some (doc_id d, pageNum))).

(** [await task.promise] resolved: [setStatus('')]. *)
Definition renderPage_task_done (s : State) (d : PDFDocument) (pageNum : Z)
    : State * list Frame :=
  (setStatus (draw s d pageNum) "", [Ret Normal]).

(** [await task.promise] rejected with [e]: the [catch] block. *)
Definition renderPage_task_failed (s : State) (e : Err) : State * list Frame :=
  if is_cancelled_exception e then (s, [Ret Normal])
  else (setStatus (log s "error" e) "Failed to render page.", [Ret Normal]).

(** ** loadPdf *)

Definition pdf_url (fileName : string) : string :=
  "./pdfs/" ++ encodeURIComponent fileName.

(** The synchronous part of [loadPdf(item)], up to the first [await]. *)
Definition loadPdf (s : State) (it : Item) : State * list Frame :=
  let c := current s in
  let s1 := with_current s (mkCurrent None (Some it) 1 0 (renderTask c)) in
  let e := els s1 in
  let s2 := with_els s1 (mkEls (status_text e) (prev_disabled e) (next_disabled e)
              (download_disabled e) (indicator_text e) (title it) ""
              (pdf_url (fileName it)) (canvas_width e) (canvas_height e)
              (canvas_image e)) in
  let s3 := setStatus (setControlsEnabled s2 false) "Loading…" in
  (s3, [LP_load FirstTry (download_href (els s3)) (workerSrc s3)]).

(** [getDocument(...).promise] resolved with [d] (same code in both tries). *)
Definition loadPdf_loaded (s : State) (a : Attempt) (d : PDFDocument)
    : State * list Frame :=
  let c := current s in
  let s1 := with_current s (mkCurrent (Some d) (item c) (page c) (numPages d)
              (renderTask c)) in
  let e := els s1 in
  let s2 := with_els s1 (mkEls (status_text e) (prev_disabled e) (next_disabled e)
              (download_disabled e) (indicator_text e) (title_text e)
              (js_number (numPages d) ++ " page(s)") (download_href e)
              (canvas_width e) (canvas_height e) (canvas_image e)) in
  let s3 := updatePager (setControlsEnabled s2 true) in
  let (s4, fr) := renderPage s3 1 in
  (s4, (fr ++ [LP_render a])%list).

(** The outer [catch (err)]: switch to the CDN worker and load again; the
    inner [catch (err2)]: report the failure. *)
Definition loadPdf_failed (s : State) (a : Attempt) (err : Err) : State * list Frame :=
  match a with
  | FirstTry =>
      let s1 := with_workerSrc (log s "warn" err) CDN_WORKER in
      (s1, [LP_load Retry (download_href (els s1)) (workerSrc s1)])
  | Retry =>
      (setStatus (log s "error" err) "Failed to load PDF.", [Ret Normal])
  end.

(** ** The event loop *)

(** How the environment settles the promise a suspended call waits for. *)
Inductive Outcome :=
  | Resolved_doc (d : PDFDocument)
  | Resolved_page (pg : PDFPage)
  | Resolved_done
  | Rejected (e : Err).

(** Resuming the top frame of a call with the outcome of its promise.  A
    render task that was cancelled rejects with a
    [RenderingCancelledException]; one that was not cancelled resolves or
    rejects with another error. *)
Definition on_resolve (s : State) (f : Frame) (o : Outcome)
    : option (State * list Frame) :=
  match f, o with
  | RP_getPage d n, Resolved_page pg => Some (renderPage_got_page s d n pg)
  | RP_getPage _ _, Rejected e => Some (s, [Ret (Throw e)])
  | RP_task t d n, Resolved_done =>
      if task_cancelled s t then None else Some (renderPage_task_done s d n)
  | RP_task t _ _, Rejected e =>
      if Bool.eqb (task_cancelled s t) (is_cancelled_exception e)
      then Some (renderPage_task_failed s e) else None
  | LP_load a _ _, Resolved_doc d => Some (loadPdf_loaded s a d)
  | LP_load a _ _, Rejected e => Some (loadPdf_failed s a e)
  | _, _ => None
  end.

(** A caller frame receiving the completion of its callee. *)
Definition on_return (s : State) (f : Frame) (r : Completion)
    : option (State * list Frame) :=
  match f, r with
  | LP_render _, Normal => Some (s, [Ret Normal])
  | LP_render a, Throw e => Some (loadPdf_failed s a e)
  | Handler, Normal => Some (s, [])
  | Handler, Throw e => Some (with_uncaught s (e :: uncaught s), [])
  | _, _ => None
  end.

Inductive Event :=
  (* click on a button of the document list *)
  | Select (it : Item)
  (* click on [els.prev] / [els.next] *)
  | ClickPrev
  | ClickNext
  (* the promise awaited by call [i] settles *)
  | Resolve (i : nat) (o : Outcome)
  (* call [i] receives the completion of its finished callee *)
  | Resume (i : nat).

Definition spawn (s : State) (fr : list Frame) : State :=
  with_threads s (threads s ++ [fr ++ [Handler]])%list.

(** A listener calling [renderPage(pageNum)] / [loadPdf(item)]. *)
Definition call_renderPage (s : State) (pageNum : Z) : State :=
  let (s1, fr) := renderPage s pageNum in spawn s1 fr.

Definition call_loadPdf (s : State) (it : Item) : State :=
  let (s1, fr) := loadPdf s it in spawn s1 fr.

Definition step (s : State) (ev : Event) : option State :=
  match ev with
  | Select it => Some (call_loadPdf s it)
  | ClickPrev =>
      (* a disabled button dispatches no click *)
      if prev_disabled (els s) then Some s
      else Some (call_renderPage s (page (current s) - 1))
  | ClickNext =>
      if next_disabled (els s) then Some s
      else Some (call_renderPage s (page (current s) + 1))
  | Resolve i o =>
      match nth_error (threads s) i with
      | Some (f :: rest) =>
          match on_resolve s f o with
          | Some (s1, fr) => Some (with_threads s1 (set_nth (threads s1) i (fr ++ rest)%list))
          | None => None
          end
      | _ => None
      end
  | Resume i =>
      match nth_error (threads s) i with
      | Some (Ret r :: f :: rest) =>
          match on_return s f r with
          | Some (s1, fr) => Some (with_threads s1 (set_nth (threads s1) i (fr ++ rest)%list))
          | None => None
          end
      | _ => None
      end
  end.

Fixpoint run (s : State) (evs : list Event) : option State :=
  match evs with
  | [] => Some s
  | ev :: evs' => match step s ev with Some s' => run s' evs' | None => None end
  end.

(** The page at start: [current] as declared, the DOM as the page template
    gives it (the template is not part of the sources, so it is a parameter). *)
Definition init (e0 : Els) : State :=
  mkState (mkCurrent None None 1 0 None) e0 LOCAL_WORKER [] [] [] [].

Definition reachable (e0 : Els) (s : State) : Prop :=
  exists evs, run (init e0) evs = Some s.

(** ** Properties of states *)

(** The pager controls and the indicator agree with [current]: as
    [updatePager] sets them while a document is open; both buttons disabled
    while a load is in progress or has failed. *)
Definition pager_inv (s : State) : Prop :=
  match doc (current s) with
  | Some _ =>
      prev_disabled (els s) = negb (Z.gtb (page (current s)) 1)
      /\ next_disabled (els s) = negb (Z.ltb (page (current s)) (pages (current s)))
      /\ indicator_text (els s) = page_indicator (page (current s)) (pages (current s))
  | None =>
      item (current s) <> None ->
      prev_disabled (els s) = true /\ next_disabled (els s) = true
  end.

Definition range_inv (s : State) : Prop :=
  doc (current s) <> None -> (1 <= page (current s) <= pages (current s))%Z.

(** pdf.js documents have at least one page. *)
Definition doc_nonempty_event (ev : Event) : Prop :=
  match ev with
  | Resolve _ (Resolved_doc d) => (1 <= numPages d)%Z
  | _ => True
  end.

(** ** Scenarios *)

(** A DOM in which nothing has happened yet (blank 300x150 canvas). *)
Definition els0 : Els := mkEls "" true true true "—" "" "" "" 300 150 None.

Definition item_a : Item := mkItem "Portfolio" "portfolio.pdf".
Definition item_b : Item := mkItem "Thesis 2024" "thesis 2024.pdf".
Definition doc_a : PDFDocument := mkDoc 1 3.
Definition doc_b : PDFDocument := mkDoc 2 5.
Definition page_a : PDFPage := mkPage 765 990.
Definition load_error : Err := mkErr "MissingPDFException" 0.
Definition render_error : Err := mkErr "Error" 1.
Definition cancel_error : Err := mkErr RenderingCancelledException 2.

(** Open [item_a]: decode, fetch page 1, rasterize it, return to the listener. *)
Definition open_a : list Event :=
  [Select item_a; Resolve 0 (Resolved_doc doc_a); Resolve 0 (Resolved_page page_a);
   Resolve 0 Resolved_done; Resume 0; Resume 0].

Definition state_of (o : option State) : State :=
  match o with Some s => s | None => init els0 end.

Definition s_open_a : State := state_of (run (init els0) open_a).

(** Two quick clicks on "next" (pages 2 and 3); page 2's call is still
    waiting for [getPage] when page 3's call starts. *)
Definition fast_paging : list Event := (open_a ++ [ClickNext; ClickNext])%list.

Definition fast_paging_rest : list Event :=
  [Resolve 1 (Resolved_page page_a); Resolve 2 (Resolved_page page_a);
   Resolve 2 Resolved_done; Resolve 1 Resolved_done].

(** [item_a] decoded and page 1 fetched: its render task 0 is running. *)
Definition s_task_running : State :=
  state_of (run (init els0)
    [Select item_a; Resolve 0 (Resolved_doc doc_a); Resolve 0 (Resolved_page page_a)]).

(** [item_a]'s page-1 task failed with [render_error]. *)
Definition s_task_failed : State :=
  state_of (run (init els0)
    [Select item_a; Resolve 0 (Resolved_doc doc_a); Resolve 0 (Resolved_page page_a);
     Resolve 0 (Rejected render_error)]).

(** ** The document list ([renderList]) *)

(** What [els.list] holds: the placeholder [div.muted], or a button per
    manifest entry with its label and whether it has the class [active]. *)
Inductive ListEntry :=
  | Muted (text : string)
  | ListButton (label : string) (active : bool).

(** [renderList()]: [PDF_LIST] is an array of entries ([Some]) or some value
    that is not an array ([None]); the list is emptied and refilled. *)
Definition renderList (PDF_LIST : option (list Item)) : list ListEntry :=
  match PDF_LIST with
  | Some ((_ :: _) as l) => map (fun it => ListButton (title it) false) l
  | _ => [Muted "No PDFs found. Add PDFs to the pdfs/ folder and push."]
  end.

(** [b.classList.remove('active')] / [btn.classList.add('active')] *)
Definition deactivate (en : ListEntry) : ListEntry :=
  match en with ListButton lb _ => ListButton lb false | m => m end.

Definition activate (en : ListEntry) : ListEntry :=
  match en with ListButton lb _ => ListButton lb true | m => m end.

Fixpoint update_nth {A} (f : A -> A) (l : list A) (n : nat) : list A :=
  match l, n with
  | [], _ => []
  | x :: t, O => f x :: t
  | x :: t, S n' => x :: update_nth f t n'
  end.

(** The listener of the [k]-th button, up to [await loadPdf(item)]: every
    button of the list loses [active], the clicked one gets it, and the load
    of its entry starts. *)
Definition click_list (PDF_LIST : list Item) (p : list ListEntry * State) (k : nat)
    : option (list ListEntry * State) :=
  match nth_error PDF_LIST k with
  | Some it => Some (update_nth activate (map deactivate (fst p)) k, call_loadPdf (snd p) it)
  | None => None
  end.

Fixpoint click_run (PDF_LIST : list Item) (p : list ListEntry * State) (ks : list nat)
    : option (list ListEntry * State) :=
  match ks with
  | [] => Some p
  | k :: ks' =>
      match click_list PDF_LIST p k with
      | Some p1 => click_run PDF_LIST p1 ks'
      | None => None
      end
  end.

(** A session with no click on the pager buttons. *)
Definition no_pager_click (ev : Event) : bool :=
  match ev with ClickPrev | ClickNext => false | _ => true end.

(** The frames a call started by a document-list listener can have. *)
Definition load_frames (fr : list Frame) : bool :=
  match fr with
  | [] => true
  | [LP_load _ _ _; Handler] => true
  | [RP_getPage _ _; LP_render _; Handler] => true
  | [RP_task _ _ _; LP_render _; Handler] => true
  | [Ret _; LP_render _; Handler] => true
  | [Ret Normal; Handler] => true
  | _ => false
  end.

(** ** The manifest of scripts/build.mjs *)

(** The build script turns each file of [pdfs/] into a manifest entry (the
    [PDF_LIST] of the page).  JS strings are sequences of UTF-16 code
    units. *)
Definition js_string := list Z.

Definition dash : Z := 45.

(** [\s] of a regular expression without the [u] flag: the WhiteSpace and
    LineTerminator code units. *)
Definition is_js_space (c : Z) : bool :=
  existsb (Z.eqb c) [9; 10; 11; 12; 13; 32; 160; 5760; 8232; 8233; 8239; 8287; 12288; 65279]%Z
  || (Z.leb 8192 c && Z.leb c 8202).

(** [[a-z0-9._-]] *)
Definition slug_char (c : Z) : bool :=
  (Z.leb 97 c && Z.leb c 122) || (Z.leb 48 c && Z.leb c 57)
  || Z.eqb c 46 || Z.eqb c 95 || Z.eqb c dash.

(** [s.replaceAll(/p+/g, '-')]: each maximal run of code units satisfying
    [p] becomes one ['-']; [in_run] tells whether the previous code unit was
    part of a run. *)
Fixpoint replace_runs (p : Z -> bool) (in_run : bool) (s : js_string) : js_string :=
  match s with
  | [] => []
  | c :: r =>
      if p c then (if in_run then replace_runs p true r else dash :: replace_runs p true r)
      else c :: replace_runs p false r
  end.

Definition drop_trailing_dash (s : js_string) : js_string :=
  match rev s with
  | c :: r => if Z.eqb c dash then rev r else s
  | [] => s
  end.

(** [s.replaceAll(/^-|-$/g, '')]: a leading ['-'] goes, then a trailing one
    that is not the same code unit. *)
Definition strip_dashes (s : js_string) : js_string :=
  match s with
  | c :: r => if Z.eqb c dash then drop_trailing_dash r else drop_trailing_dash s
  | [] => []
  end.

Fixpoint js_string_eqb (s t : js_string) : bool :=
  match s, t with
  | [], [] => true
  | a :: s', b :: t' => Z.eqb a b && js_string_eqb s' t'
  | _, _ => false
  end.

(** [s.endsWith(suffix)] *)
Definition endsWith (s suffix : js_string) : bool :=
  Nat.leb (List.length suffix) (List.length s)
  && js_string_eqb (skipn (List.length s - List.length suffix) s) suffix.

(** ".pdf" *)
Definition dot_pdf : js_string := [46; 112; 100; 102]%Z.

(** [/\.pdf$/i] at the end of [s] (without the [u] flag, [i] folds ASCII
    letters only). *)
Definition ends_with_pdf_ci (s : js_string) : bool :=
  match skipn (List.length s - 4) s with
  | [a; b; c; d] =>
      Nat.leb 4 (List.length s) && Z.eqb a 46 && (Z.eqb b 112 || Z.eqb b 80)
      && (Z.eqb c 100 || Z.eqb c 68) && (Z.eqb d 102 || Z.eqb d 70)
  | _ => false
  end.

(** [f.replace(/\.pdf$/i, '')] *)
Definition strip_pdf_ext (f : js_string) : js_string :=
  if ends_with_pdf_ci f then firstn (List.length f - 4) f else f.

(** The lower-casing of ASCII code units. *)
Definition ascii_lower (c : Z) : Z :=
  if Z.leb 65 c && Z.leb c 90 then c + 32 else c.

(** [String.prototype.toLowerCase] follows the Unicode case mappings; the
    build script only relies on what it does to ASCII. *)
Definition lower_ascii (toLowerCase : js_string -> js_string) : Prop :=
  forall s, Forall (fun c => 0 <= c < 128)%Z s -> toLowerCase s = map ascii_lower s.

Section Build.
Variable toLowerCase : js_string -> js_string.

(** [slugifyFilename(name)] *)
Definition slugifyFilename (name : js_string) : js_string :=
  strip_dashes
    (replace_runs (Z.eqb dash) false
      (map (fun c => if slug_char c then c else dash)
        (replace_runs is_js_space false (toLowerCase name)))).

(** [f.toLowerCase().endsWith('.pdf')], the filter of [main()] *)
Definition is_pdf_file (f : js_string) : bool := endsWith (toLowerCase f) dot_pdf.

(** [outName] of the loop of [main()] *)
Definition outName (f : js_string) : js_string :=
  let safeName := slugifyFilename f in
  if endsWith safeName dot_pdf then safeName else (safeName ++ dot_pdf)%list.

(** [{ title: f.replace(/\.pdf$/i, ''), fileName: outName }] *)
Definition manifest_entry (f : js_string) : js_string * js_string :=
  (strip_pdf_ext f, outName f).

End Build.

(** An ASCII JS string as the page reads it from the manifest. *)
Definition string_of_units (s : js_string) : string :=
  string_of_list_ascii (map (fun c => ascii_of_nat (Z.to_nat c)) s).

(** Properties of states used by the lemmas below. *)
Definition selection_inv (s : State) : Prop :=
  forall it, item (current s) = Some it ->
    title_text (els s) = title it /\ download_href (els s) = pdf_url (fileName it).

Definition download_inv (s : State) : Prop :=
  item (current s) <> None ->
  download_disabled (els s) = match doc (current s) with Some _ => false | None => true end.

Definition meta_inv (s : State) : Prop :=
  forall d, doc (current s) = Some d ->
    pages (current s) = numPages d /\ meta_text (els s) = js_number (numPages d) ++ " page(s)".

Definition load_inv (s : State) : Prop := Forall (fun fr => load_frames fr = true) (threads s).

(** The list after a click on button [k]. *)
Definition mark (dom : list ListEntry) (k : nat) : list ListEntry :=
  update_nth activate (map deactivate dom) k.

(** No two consecutive '-'. *)
Definition no_dd (s : js_string) : Prop := forall a b, s <> (a ++ dash :: dash :: b)%list.

(** What the first three steps of [slugifyFilename] make of an ASCII code unit. *)
Definition slug_unit (c : Z) : Z :=
  let c' := ascii_lower c in if slug_char c' then c' else dash.

(** The code units of an ASCII file name. *)
Definition units_of_string (s : string) : js_string :=
  map (fun a => Z.of_nat (nat_of_ascii a)) (list_ascii_of_string s).

(** [item_a]'s first decode failed: the load is retried with the CDN worker. *)
Definition s_fallback : State :=
  state_of (run (init els0) [Select item_a; Resolve 0 (Rejected load_error)]).

(** ** Lemmas on the model *)

Ltac destruct_state s :=
  destruct s as [[c_doc c_item c_page c_pages c_task]
    [e_st e_pd e_nd e_dd e_ind e_tt e_mt e_dh e_cw e_ch e_ci] wk tk co un th].

(** Case analysis of a [Resolve] or [Resume] step of state [s] into [s']. *)
Ltac thread_step_cases Hstep :=
  cbn [threads] in Hstep;
  match type of Hstep with
  | context [nth_error ?th ?i] => destruct (nth_error th i) as [fs|]; try discriminate
  end;
  unfold on_resolve, on_return, renderPage_task_failed, loadPdf_loaded,
    loadPdf_failed, renderPage, task_cancelled in Hstep;
  repeat (cbn in Hstep; try discriminate;
    match type of Hstep with
    | context [match ?x with _ => _ end] => is_var x; destruct x
    | context [if ?b then _ else _] => destruct b
    end);
  injection Hstep as <-.

Lemma renderPage_pager_inv (s : State) (n : Z) :
  pager_inv s -> pager_inv (call_renderPage s n).
Proof.
  unfold pager_inv, call_renderPage, renderPage.
  destruct_state s; destruct c_doc as [d|]; cbn; [|tauto].
  destruct c_task; cbn; auto.
Qed.

Lemma step_pager_inv (s s' : State) (ev : Event) :
  pager_inv s -> step s ev = Some s' -> pager_inv s'.
Proof.
  intros Hinv Hstep.
  destruct ev as [it| | |i o|i]; cbn [step] in Hstep.
  - injection Hstep as <-. unfold pager_inv, call_loadPdf, loadPdf; cbn.
    intros _; split; reflexivity.
  - destruct (prev_disabled (els s)); injection Hstep as <-;
      [exact Hinv | apply renderPage_pager_inv; exact Hinv].
  - destruct (next_disabled (els s)); injection Hstep as <-;
      [exact Hinv | apply renderPage_pager_inv; exact Hinv].
  - unfold pager_inv in *; destruct_state s; thread_step_cases Hstep; cbn; auto.
  - unfold pager_inv in *; destruct_state s; thread_step_cases Hstep; cbn; auto.
Qed.

Lemma renderPage_range_inv (s : State) (n : Z) :
  range_inv s -> (doc (current s) <> None -> (1 <= n <= pages (current s))%Z) ->
  range_inv (call_renderPage s n).
Proof.
  unfold range_inv, call_renderPage, renderPage.
  destruct_state s; destruct c_doc as [d|]; cbn; [|tauto].
  intros _ Hn; destruct c_task; cbn; exact Hn.
Qed.

Lemma step_range_inv (s s' : State) (ev : Event) :
  pager_inv s -> range_inv s -> doc_nonempty_event ev ->
  step s ev = Some s' -> range_inv s'.
Proof.
  intros Hpg Hr Hne Hstep.
  destruct ev as [it| | |i o|i]; cbn [step] in Hstep.
  - injection Hstep as <-. unfold range_inv, call_loadPdf, loadPdf; cbn. tauto.
  - destruct (prev_disabled (els s)) eqn:Hp; injection Hstep as <-; [exact Hr|].
    apply renderPage_range_inv; [exact Hr|].
    intros Hd; specialize (Hr Hd); unfold pager_inv in Hpg.
    destruct (doc (current s)); [|congruence].
    destruct Hpg as [Hp' _]; rewrite Hp in Hp'.
    destruct (Z.gtb_spec (page (current s)) 1); cbn in Hp'; [lia|discriminate].
  - destruct (next_disabled (els s)) eqn:Hp; injection Hstep as <-; [exact Hr|].
    apply renderPage_range_inv; [exact Hr|].
    intros Hd; specialize (Hr Hd); unfold pager_inv in Hpg.
    destruct (doc (current s)); [|congruence].
    destruct Hpg as [_ [Hp' _]]; rewrite Hp in Hp'.
    destruct (Z.ltb_spec (page (current s)) (pages (current s))); cbn in Hp';
      [lia|discriminate].
  - unfold range_inv in *; destruct_state s; thread_step_cases Hstep; cbn in *;
      try exact Hr; intros _; lia.
  - unfold range_inv in *; destruct_state s; thread_step_cases Hstep; cbn in *;
      exact Hr.
Qed.

Lemma nth_error_snoc {A} (l : list A) (x : A) :
  nth_error (l ++ [x])%list (List.length l) = Some x.
Proof. induction l; cbn; auto. Qed.

Lemma set_nth_snoc {A} (l : list A) (x y : A) :
  set_nth (l ++ [x])%list (List.length l) y = (l ++ [y])%list.
Proof. induction l; cbn; congruence. Qed.

Lemma nth_snoc_fresh (l : list bool) :
  nth (List.length l) (l ++ [false])%list false = false.
Proof. induction l; cbn; auto. Qed.

Lemma set_nth_lookup {A} (l : list A) (n : nat) (x : A) :
  n < List.length l -> nth_error (set_nth l n x) n = Some x.
Proof.
  revert n; induction l as [|h t IH]; intros [|n] Hn; cbn in *; try lia; auto.
  apply IH; lia.
Qed.

Lemma run_cons (s s1 : State) (ev : Event) (evs : list Event) :
  step s ev = Some s1 -> run s (ev :: evs) = run s1 evs.
Proof. intros H; cbn; rewrite H; reflexivity. Qed.

Lemma step_resolve_eq (s : State) (i : nat) (f : Frame) (rest : list Frame)
    (o : Outcome) (p : State * list Frame) :
  nth_error (threads s) i = Some (f :: rest) -> on_resolve s f o = Some p ->
  step s (Resolve i o)
  = Some (with_threads (fst p) (set_nth (threads (fst p)) i (snd p ++ rest)%list)).
Proof. intros H1 H2; cbn [step]; rewrite H1, H2; destruct p; reflexivity. Qed.

Lemma step_resume_eq (s : State) (i : nat) (r : Completion) (f : Frame)
    (rest : list Frame) (p : State * list Frame) :
  nth_error (threads s) i = Some (Ret r :: f :: rest) -> on_return s f r = Some p ->
  step s (Resume i)
  = Some (with_threads (fst p) (set_nth (threads (fst p)) i (snd p ++ rest)%list)).
Proof. intros H1 H2; cbn [step]; rewrite H1, H2; destruct p; reflexivity. Qed.

Lemma on_resolve_task_done (s : State) (t : nat) (d : PDFDocument) (n : Z) :
  task_cancelled s t = false ->
  on_resolve s (RP_task t d n) Resolved_done = Some (renderPage_task_done s d n).
Proof. intros H; cbn; rewrite H; reflexivity. Qed.

(** Execute the first event of a [run]: the state after it is kept as the
    expression of the functions that produce it. *)
Ltac thread_fact :=
  cbn -[nth_error set_nth pdf_url]; rewrite ?set_nth_snoc, ?nth_error_snoc; reflexivity.

Ltac task_fact :=
  unfold task_cancelled; cbn -[nth pdf_url]; apply nth_snoc_fresh.

Ltac step1 :=
  match goal with
  | |- context [run ?s (Select ?it :: ?evs)] =>
      rewrite (run_cons s (call_loadPdf s it) (Select it) evs eq_refl)
  | |- context [run ?s (Resolve ?i ?o :: ?evs)] =>
      erewrite (run_cons s _ (Resolve i o) evs)
        by (eapply step_resolve_eq;
            [thread_fact | first [reflexivity | apply on_resolve_task_done; task_fact]])
  | |- context [run ?s (Resume ?i :: ?evs)] =>
      erewrite (run_cons s _ (Resume i) evs)
        by (eapply step_resume_eq; [thread_fact | reflexivity])
  end.

Ltac field_fact := cbn -[nth_error set_nth pdf_url];
  rewrite ?set_nth_snoc, ?nth_error_snoc; reflexivity.

Lemma run_pager_inv (s s' : State) (evs : list Event) :
  pager_inv s -> run s evs = Some s' -> pager_inv s'.
Proof.
  revert s; induction evs as [|ev evs IH]; intros s Hinv Hrun; cbn in Hrun.
  - injection Hrun as <-; assumption.
  - destruct (step s ev) as [s1|] eqn:Hs; [|discriminate].
    exact (IH s1 (step_pager_inv s s1 ev Hinv Hs) Hrun).
Qed.

Lemma run_range_inv (s s' : State) (evs : list Event) :
  pager_inv s -> range_inv s -> Forall doc_nonempty_event evs ->
  run s evs = Some s' -> range_inv s'.
Proof.
  revert s; induction evs as [|ev evs IH]; intros s Hinv Hr Hne Hrun; cbn in Hrun.
  - injection Hrun as <-; assumption.
  - inversion Hne as [|ev' evs' Hev Hevs]; subst.
    destruct (step s ev) as [s1|] eqn:Hs; [|discriminate].
    exact (IH s1 (step_pager_inv s s1 ev Hinv Hs)
             (step_range_inv s s1 ev Hinv Hr Hev Hs) Hevs Hrun).
Qed.

Lemma init_pager_inv (e0 : Els) : pager_inv (init e0).
Proof. unfold pager_inv; cbn; congruence. Qed.

Lemma init_range_inv (e0 : Els) : range_inv (init e0).
Proof. unfold range_inv; cbn; congruence. Qed.

(** A rejected render task: the [catch] of [renderPage] runs and the call
    completes normally. *)
Lemma task_rejected_step (s s' : State) (i t : nat) (d : PDFDocument) (n : Z)
    (rest : list Frame) (e : Err) :
  nth_error (threads s) i = Some (RP_task t d n :: rest) ->
  step s (Resolve i (Rejected e)) = Some s' ->
  task_cancelled s t = is_cancelled_exception e
  /\ s' = with_threads (fst (renderPage_task_failed s e))
            (set_nth (threads s) i (Ret Normal :: rest)).
Proof.
  intros Hth Hstep; cbn [step] in Hstep; rewrite Hth in Hstep; cbn in Hstep.
  destruct (Bool.eqb (task_cancelled s t) (is_cancelled_exception e)) eqn:Heq;
    [|discriminate].
  apply Bool.eqb_prop in Heq; split; [exact Heq|].
  unfold renderPage_task_failed in *.
  destruct (is_cancelled_exception e); injection Hstep as <-; reflexivity.
Qed.

Lemma step_keeps_renderTask (s s' : State) (ev : Event) :
  step s ev = Some s' -> renderTask (current s) <> None ->
  renderTask (current s') <> None.
Proof.
  intros Hstep Hrt.
  destruct ev as [it| | |i o|i]; cbn [step] in Hstep.
  - injection Hstep as <-; unfold call_loadPdf, loadPdf; cbn; exact Hrt.
  - destruct (prev_disabled (els s)); injection Hstep as <-; [exact Hrt|].
    unfold call_renderPage, renderPage; destruct_state s; cbn in *.
    destruct c_doc, c_task; cbn; congruence.
  - destruct (next_disabled (els s)); injection Hstep as <-; [exact Hrt|].
    unfold call_renderPage, renderPage; destruct_state s; cbn in *.
    destruct c_doc, c_task; cbn; congruence.
  - destruct_state s; thread_step_cases Hstep; cbn in *; congruence.
  - destruct_state s; thread_step_cases Hstep; cbn in *; congruence.
Qed.

(** ** Lemmas on the document list, the session and the build script *)

Lemma run_preserves (P : State -> Prop) :
  (forall s s' ev, P s -> step s ev = Some s' -> P s') ->
  forall evs s s', P s -> run s evs = Some s' -> P s'.
Proof.
  intros Hstep evs; induction evs as [|ev evs IH]; intros s s' Hs Hrun; cbn in Hrun.
  - injection Hrun as <-; exact Hs.
  - destruct (step s ev) as [s1|] eqn:E; [|discriminate].
    exact (IH s1 s' (Hstep s s1 ev Hs E) Hrun).
Qed.

Ltac split_matches :=
  repeat (cbn; match goal with
          | |- context [match ?x with _ => _ end] => is_var x; destruct x
          end).

Ltac session_step s ev Hstep :=
  destruct ev as [it| | |i o|i]; cbn [step] in Hstep;
  [ injection Hstep as <-; unfold call_loadPdf, loadPdf; destruct_state s; cbn
  | destruct (prev_disabled (els s)); injection Hstep as <-;
      [ | unfold call_renderPage, renderPage; destruct_state s; split_matches ]
  | destruct (next_disabled (els s)); injection Hstep as <-;
      [ | unfold call_renderPage, renderPage; destruct_state s; split_matches ]
  | destruct_state s; thread_step_cases Hstep; cbn
  | destruct_state s; thread_step_cases Hstep; cbn ].

Lemma step_selection_inv s s' ev : selection_inv s -> step s ev = Some s' -> selection_inv s'.
Proof.
  unfold selection_inv; intros Hinv Hstep.
  session_step s ev Hstep; cbn in *; auto.
  intros it' H; injection H as <-; auto.
Qed.

Lemma step_download_inv s s' ev : download_inv s -> step s ev = Some s' -> download_inv s'.
Proof.
  unfold download_inv; intros Hinv Hstep.
  session_step s ev Hstep; cbn in *; auto.
Qed.

Lemma step_meta_inv s s' ev : meta_inv s -> step s ev = Some s' -> meta_inv s'.
Proof.
  unfold meta_inv; intros Hinv Hstep.
  session_step s ev Hstep; cbn in *; auto; intros d' H; try discriminate;
  injection H as <-; auto.
Qed.

Lemma step_workerSrc s s' ev : step s ev = Some s' ->
  workerSrc s' = workerSrc s \/ workerSrc s' = CDN_WORKER.
Proof.
  intros Hstep; session_step s ev Hstep; cbn; auto.
Qed.

Lemma load_frames_cases fr : load_frames fr = true ->
  fr = [] \/ (exists a u w, fr = [LP_load a u w; Handler])
  \/ (exists d n a, fr = [RP_getPage d n; LP_render a; Handler])
  \/ (exists t d n a, fr = [RP_task t d n; LP_render a; Handler])
  \/ (exists r a, fr = [Ret r; LP_render a; Handler])
  \/ fr = [Ret Normal; Handler].
Proof.
  unfold load_frames; intros H.
  repeat (match type of H with
          | context [match ?x with _ => _ end] => destruct x
          end; try discriminate);
  eauto 10.
Qed.

Lemma on_resolve_frames s f rest o s1 fr :
  load_frames (f :: rest) = true -> on_resolve s f o = Some (s1, fr) ->
  load_frames (fr ++ rest) = true /\ uncaught s1 = uncaught s /\ threads s1 = threads s.
Proof.
  intros Hf Ho.
  destruct (load_frames_cases _ Hf) as
    [E|[(a&u&w&E)|[(d&n&a&E)|[(t&d&n&a&E)|[(r&a&E)|E]]]]]; try discriminate;
    injection E as E1 E2; subst f rest; destruct o; cbn in Ho; try discriminate;
    unfold renderPage_task_failed, loadPdf_failed, loadPdf_loaded, renderPage,
      renderPage_task_done, renderPage_got_page in Ho;
    repeat (cbn in Ho; try discriminate;
      match type of Ho with
      | context [match ?x with _ => _ end] => destruct x
      | context [if ?b then _ else _] => destruct b
      end);
    injection Ho as <- <-; cbn; auto.
Qed.

Lemma on_return_frames s r f rest s1 fr :
  load_frames (Ret r :: f :: rest) = true -> on_return s f r = Some (s1, fr) ->
  load_frames (fr ++ rest) = true /\ uncaught s1 = uncaught s /\ threads s1 = threads s.
Proof.
  intros Hf Ho.
  destruct (load_frames_cases _ Hf) as
    [E|[(a&u&w&E)|[(d&n&a&E)|[(t&d&n&a&E)|[(r'&a&E)|E]]]]]; try discriminate;
    injection E as E1 E2 E3; subst; try destruct r; cbn in Ho; try discriminate;
    unfold loadPdf_failed in Ho;
    repeat (cbn in Ho; try discriminate;
      match type of Ho with
      | context [match ?x with _ => _ end] => destruct x
      end);
    injection Ho as <- <-; cbn; auto.
Qed.

Lemma Forall_set_nth {A} (P : A -> Prop) l n x :
  Forall P l -> P x -> Forall P (set_nth l n x).
Proof.
  intros Hl; revert n; induction Hl as [|y l Hy Hl IH]; intros [|n] Hx; cbn;
    constructor; auto.
Qed.

Lemma step_load_inv s s' ev :
  no_pager_click ev = true -> load_inv s -> step s ev = Some s' ->
  load_inv s' /\ uncaught s' = uncaught s.
Proof.
  unfold load_inv; intros Hev Hinv Hstep.
  destruct ev as [it| | |i o|i]; cbn [step] in Hstep; try discriminate.
  - injection Hstep as <-; unfold call_loadPdf, loadPdf, spawn; cbn.
    split; [|reflexivity].
    apply Forall_app; split; [exact Hinv|constructor; [reflexivity|constructor]].
  - destruct (nth_error (threads s) i) as [[|f rest]|] eqn:Hn; try discriminate.
    destruct (on_resolve s f o) as [[s1 fr]|] eqn:Ho; try discriminate.
    injection Hstep as <-.
    pose proof (proj1 (Forall_forall _ _) Hinv _ (nth_error_In _ _ Hn)) as Hf.
    destruct (on_resolve_frames s f rest o s1 fr Hf Ho) as (H1 & H2 & H3).
    cbn; split; [|exact H2]. rewrite H3. apply Forall_set_nth; assumption.
  - destruct (nth_error (threads s) i) as [[|[r| | | | |] [|f rest]]|] eqn:Hn;
      try discriminate.
    destruct (on_return s f r) as [[s1 fr]|] eqn:Ho; try discriminate.
    injection Hstep as <-.
    pose proof (proj1 (Forall_forall _ _) Hinv _ (nth_error_In _ _ Hn)) as Hf.
    destruct (on_return_frames s r f rest s1 fr Hf Ho) as (H1 & H2 & H3).
    cbn; split; [|exact H2]. rewrite H3. apply Forall_set_nth; assumption.
Qed.

Lemma run_load_inv evs : forall s s',
  Forall (fun ev => no_pager_click ev = true) evs -> load_inv s ->
  run s evs = Some s' -> load_inv s' /\ uncaught s' = uncaught s.
Proof.
  induction evs as [|ev evs IH]; intros s s' Hevs Hinv Hrun; cbn in Hrun.
  - injection Hrun as <-; auto.
  - inversion Hevs as [|? ? Hev Hevs']; subst.
    destruct (step s ev) as [s1|] eqn:E; [|discriminate].
    destruct (step_load_inv s s1 ev Hev Hinv E) as [Hi1 Hu1].
    destruct (IH s1 s' Hevs' Hi1 Hrun) as [Hi2 Hu2]; split; congruence.
Qed.

Lemma map_update_nth {A B} (g : A -> B) (f : A -> A) l k :
  (forall x, g (f x) = g x) -> map g (update_nth f l k) = map g l.
Proof.
  intros Hgf; revert k; induction l as [|x l IH]; intros [|k]; cbn; f_equal; auto.
Qed.

Lemma deactivate_activate en : deactivate (activate en) = deactivate en.
Proof. destruct en; reflexivity. Qed.

Lemma deactivate_idem en : deactivate (deactivate en) = deactivate en.
Proof. destruct en; reflexivity. Qed.

Lemma map_deactivate_mark dom k : map deactivate (mark dom k) = map deactivate dom.
Proof.
  unfold mark; rewrite map_update_nth by apply deactivate_activate.
  rewrite map_map; apply map_ext, deactivate_idem.
Qed.

Lemma mark_mark dom k1 k2 : mark (mark dom k1) k2 = mark dom k2.
Proof. unfold mark at 1; rewrite map_deactivate_mark; reflexivity. Qed.

Lemma click_run_spec items ks : forall dom s p',
  click_run items (dom, s) ks = Some p' ->
  fst p' = fold_left mark ks dom
  /\ exists its, Forall2 (fun k it => nth_error items k = Some it) ks its
       /\ run s (map Select its) = Some (snd p').
Proof.
  induction ks as [|k ks IH]; intros dom s p' H; cbn in H.
  - injection H as <-; split; [reflexivity|]; exists []; split; [constructor|reflexivity].
  - unfold click_list in H; cbn in H.
    destruct (nth_error items k) as [it|] eqn:Hk; [|discriminate].
    destruct (IH _ _ _ H) as (H1 & its & H2 & H3).
    split; [exact H1|].
    exists (it :: its); split; [constructor; assumption|].
    cbn; exact H3.
Qed.

Lemma fold_mark_snoc ks k dom : fold_left mark (ks ++ [k])%list dom = mark dom k.
Proof.
  rewrite fold_left_app; cbn [fold_left].
  revert dom; induction ks as [|k1 ks IH]; intros dom; cbn [fold_left]; [reflexivity|].
  rewrite IH, mark_mark; reflexivity.
Qed.

Lemma nth_error_update_nth {A} (f : A -> A) l k j :
  nth_error (update_nth f l k) j
  = if Nat.eqb j k then option_map f (nth_error l j) else nth_error l j.
Proof.
  revert k j; induction l as [|x l IH]; intros [|k] [|j]; cbn; auto;
    try (destruct (Nat.eqb _ _); reflexivity).
Qed.

Lemma hex_digit_inj a b : a < 16 -> b < 16 -> hex_digit a = hex_digit b -> a = b.
Proof.
  intros Ha Hb H.
  do 16 (destruct a as [|a]; [do 16 (destruct b as [|b]; [first [reflexivity | discriminate H] |]); lia |]).
  lia.
Qed.

Lemma string_app_cancel (p a b : string) : p ++ a = p ++ b -> a = b.
Proof. induction p; cbn; intros H; [exact H | injection H; auto]. Qed.

Lemma encodeURIComponent_cons c r :
  encodeURIComponent (String c r)
  = if uri_unreserved c then String c (encodeURIComponent r)
    else String "%" (String (hex_digit (Nat.div (nat_of_ascii c) 16))
           (String (hex_digit (Nat.modulo (nat_of_ascii c) 16)) (encodeURIComponent r))).
Proof. reflexivity. Qed.

Lemma encodeURIComponent_inj s1 : forall s2,
  encodeURIComponent s1 = encodeURIComponent s2 -> s1 = s2.
Proof.
  induction s1 as [|c1 r1 IH]; intros [|c2 r2] H;
    rewrite ?encodeURIComponent_cons in H; cbn [encodeURIComponent] in H.
  - reflexivity.
  - destruct (uri_unreserved c2); discriminate.
  - destruct (uri_unreserved c1); discriminate.
  - destruct (uri_unreserved c1) eqn:E1, (uri_unreserved c2) eqn:E2.
    + injection H as -> H; f_equal; auto.
    + injection H as -> _; discriminate E1.
    + injection H as <- _; discriminate E2.
    + assert (Hh : hex_digit (nat_of_ascii c1 / 16) = hex_digit (nat_of_ascii c2 / 16))
        by exact (f_equal (fun x => match x with
                                    | String _ (String a _) => a | _ => "0"%char end) H).
      assert (Hl : hex_digit (nat_of_ascii c1 mod 16) = hex_digit (nat_of_ascii c2 mod 16))
        by exact (f_equal (fun x => match x with
                                    | String _ (String _ (String a _)) => a
                                    | _ => "0"%char end) H).
      assert (Hr : encodeURIComponent r1 = encodeURIComponent r2)
        by exact (f_equal (fun x => match x with
                                    | String _ (String _ (String _ r)) => r
                                    | _ => EmptyString end) H).
      clear H.
      pose proof (nat_ascii_bounded c1); pose proof (nat_ascii_bounded c2).
      apply hex_digit_inj in Hh; [|apply Nat.Div0.div_lt_upper_bound; lia ..].
      apply hex_digit_inj in Hl; [|apply Nat.mod_upper_bound; lia ..].
      assert (Hn : nat_of_ascii c1 = nat_of_ascii c2).
      { rewrite (Nat.div_mod_eq (nat_of_ascii c1) 16), (Nat.div_mod_eq (nat_of_ascii c2) 16).
        congruence. }
      rewrite <- (ascii_nat_embedding c1), <- (ascii_nat_embedding c2), Hn.
      f_equal; auto.
Qed.

Lemma replace_runs_dash_shape s : forall b,
  no_dd (replace_runs (Z.eqb dash) b s)
  /\ (b = true -> forall a, replace_runs (Z.eqb dash) b s <> dash :: a).
Proof.
  unfold no_dd.
  induction s as [|c r IH]; intros b; cbn [replace_runs].
  - split; [intros a b' H; destruct a; discriminate | intros _ a H; discriminate].
  - destruct (Z.eqb dash c) eqn:E; [destruct b|].
    + exact (IH true).
    + destruct (IH true) as [N1 N2]; split; [|discriminate].
      intros [|x a] b' H; cbn in H.
      * injection H as H2; exact (N2 eq_refl b' H2).
      * injection H as H1 H2; exact (N1 a b' H2).
    + destruct (IH false) as [N1 _]; split.
      * intros [|x a] b' H; injection H as H1 H2.
        -- subst c; rewrite Z.eqb_refl in E; discriminate.
        -- exact (N1 a b' H2).
      * intros _ a H; injection H as H1 _; subst c; rewrite Z.eqb_refl in E; discriminate.
Qed.

Lemma In_replace_runs p b s x : In x (replace_runs p b s) -> In x s \/ x = dash.
Proof.
  revert b; induction s as [|c r IH]; intros b; cbn [replace_runs]; [tauto|].
  destruct (p c), b; cbn; intros H; try destruct H as [H|H]; auto;
    destruct (IH _ H); auto.
Qed.

Lemma drop_trailing_dash_spec s :
  (exists r, s = (r ++ [dash])%list /\ drop_trailing_dash s = r)
  \/ (drop_trailing_dash s = s /\ forall r, s <> (r ++ [dash])%list).
Proof.
  unfold drop_trailing_dash.
  destruct (rev s) as [|c r] eqn:E.
  - right; split; [reflexivity|]; intros r H; subst s.
    rewrite rev_app_distr in E; discriminate.
  - destruct (Z.eqb c dash) eqn:Ec.
    + left; exists (rev r); split; [|reflexivity].
      apply Z.eqb_eq in Ec; subst c.
      rewrite <- (rev_involutive s), E; reflexivity.
    + right; split; [reflexivity|]; intros r' H; subst s.
      rewrite rev_app_distr in E; injection E as Hc _; subst c.
      rewrite Z.eqb_refl in Ec; discriminate.
Qed.

Lemma no_dd_cons x s : no_dd (x :: s) -> no_dd s.
Proof. intros H a b E; apply (H (x :: a) b); rewrite E; reflexivity. Qed.

Lemma no_dd_snoc s x : no_dd (s ++ [x])%list -> no_dd s.
Proof.
  intros H a b E; apply (H a (b ++ [x])%list); rewrite E, <- app_assoc; reflexivity.
Qed.

Lemma strip_dashes_shape t : no_dd t ->
  no_dd (strip_dashes t)
  /\ (forall x, In x (strip_dashes t) -> In x t)
  /\ (forall a, strip_dashes t <> dash :: a)
  /\ (forall a, strip_dashes t <> (a ++ [dash])%list).
Proof.
  intros Ht; destruct t as [|c r]; unfold strip_dashes; cbn beta iota.
  - split; [intros a b H; destruct a; discriminate|].
    split; [intros x []|]; split; [discriminate|intros a H; destruct a; discriminate].
  - destruct (Z.eqb c dash) eqn:Ec.
    + apply Z.eqb_eq in Ec; subst c.
      destruct (drop_trailing_dash_spec r) as [(r' & -> & ->)|(-> & Hr)].
      * split; [apply no_dd_snoc with dash, no_dd_cons with dash, Ht|].
        split; [intros x Hx; right; apply in_or_app; left; exact Hx|].
        split.
        -- intros a ->; apply (Ht [] (a ++ [dash])%list); reflexivity.
        -- intros a ->; apply (Ht (dash :: a) []); cbn; rewrite <- app_assoc; reflexivity.
      * split; [apply no_dd_cons with dash, Ht|].
        split; [intros x Hx; right; exact Hx|].
        split; [|exact Hr].
        intros a ->; apply (Ht [] a); reflexivity.
    + destruct (drop_trailing_dash_spec (c :: r)) as [(r' & Er & ->)|(-> & Hr)].
      * rewrite Er in Ht.
        split; [apply no_dd_snoc with dash, Ht|].
        split; [intros x Hx; rewrite Er; apply in_or_app; left; exact Hx|].
        split.
        -- intros a ->; cbn in Er; injection Er as -> _; rewrite Z.eqb_refl in Ec; discriminate.
        -- intros a ->; apply (Ht a []); rewrite <- app_assoc; reflexivity.
      * split; [exact Ht|]; split; [auto|]; split; [|exact Hr].
        intros a H; injection H as -> _; rewrite Z.eqb_refl in Ec; discriminate.
Qed.

Lemma replace_runs_id p b s : (forall c, In c s -> p c = false) -> replace_runs p b s = s.
Proof.
  revert b; induction s as [|c r IH]; intros b H; cbn [replace_runs]; [reflexivity|].
  rewrite (H c (or_introl eq_refl)); f_equal; apply IH; intros x Hx; apply H; right; exact Hx.
Qed.

Lemma replace_runs_dash_id s : forall b,
  no_dd s -> (b = true -> forall a, s <> dash :: a) -> replace_runs (Z.eqb dash) b s = s.
Proof.
  induction s as [|c r IH]; intros b Hdd Hb; cbn [replace_runs]; [reflexivity|].
  destruct (Z.eqb dash c) eqn:E.
  - apply Z.eqb_eq in E; subst c.
    destruct b; [exfalso; exact (Hb eq_refl r eq_refl)|].
    f_equal; apply IH; [exact (no_dd_cons _ _ Hdd)|].
    intros _ a ->; exact (Hdd [] a eq_refl).
  - f_equal; apply IH; [exact (no_dd_cons _ _ Hdd)|discriminate].
Qed.

Lemma slug_char_not_space c : slug_char c = true -> is_js_space c = false.
Proof.
  unfold slug_char, is_js_space; intros H.
  apply Bool.not_true_iff_false; intros E; cbn [existsb] in E.
  rewrite ?orb_false_r, ?orb_true_iff, ?andb_true_iff, ?Z.eqb_eq, ?Z.leb_le in H, E.
  unfold dash in H; lia.
Qed.

Lemma slug_char_ascii c : slug_char c = true -> (0 <= c < 128)%Z /\ ascii_lower c = c.
Proof.
  unfold slug_char, ascii_lower, dash; intros H.
  rewrite ?orb_true_iff, ?andb_true_iff, ?Z.eqb_eq, ?Z.leb_le in H.
  split; [lia|].
  destruct (Z.leb 65 c && Z.leb c 90) eqn:E; [|reflexivity].
  rewrite andb_true_iff, !Z.leb_le in E; lia.
Qed.

Lemma js_string_eqb_refl s : js_string_eqb s s = true.
Proof. induction s; cbn; [reflexivity|]; rewrite Z.eqb_refl; exact IHs. Qed.

Lemma endsWith_app_suffix s suffix : endsWith (s ++ suffix)%list suffix = true.
Proof.
  unfold endsWith; rewrite length_app.
  replace (List.length s + List.length suffix - List.length suffix) with (List.length s) by lia.
  rewrite skipn_app, skipn_all, Nat.sub_diag; cbn.
  rewrite js_string_eqb_refl, andb_true_r; apply Nat.leb_le; lia.
Qed.

Lemma encodeURIComponent_unreserved s :
  (forall a, In a (list_ascii_of_string s) -> uri_unreserved a = true) ->
  encodeURIComponent s = s.
Proof.
  induction s as [|c r IH]; intros H; [reflexivity|].
  rewrite encodeURIComponent_cons, (H c (or_introl eq_refl)); f_equal.
  apply IH; intros a Ha; apply H; right; exact Ha.
Qed.

Lemma slug_char_unreserved c : slug_char c = true -> uri_unreserved (ascii_of_nat (Z.to_nat c)) = true.
Proof.
  intros H; pose proof (slug_char_ascii c H) as [Hb _].
  unfold slug_char, dash in H.
  rewrite ?orb_true_iff, ?andb_true_iff, ?Z.eqb_eq, ?Z.leb_le in H.
  unfold uri_unreserved; rewrite nat_ascii_embedding by lia.
  destruct H as [[[[H|H]|H]|H]|H].
  - apply orb_true_iff; left; apply orb_true_iff; right.
    apply andb_true_iff; split; apply Nat.leb_le; lia.
  - apply orb_true_iff; left; apply orb_true_iff; left; apply orb_true_iff; left.
    apply andb_true_iff; split; apply Nat.leb_le; lia.
  - subst c; reflexivity.
  - subst c; reflexivity.
  - subst c; reflexivity.
Qed.

Lemma replace_runs_space_dash (h : Z -> Z) :
  (forall c, is_js_space c = true -> h c = dash) -> h dash = dash ->
  forall l b b', (b = true -> b' = true) ->
  replace_runs (Z.eqb dash) b' (map h (replace_runs is_js_space b l))
  = replace_runs (Z.eqb dash) b' (map h l).
Proof.
  intros Hh Hd l; induction l as [|c r IH]; intros b b' Hbb'; [reflexivity|].
  cbn [replace_runs map].
  destruct (is_js_space c) eqn:Es.
  - rewrite (Hh c Es), Z.eqb_refl.
    destruct b.
    + rewrite (Hbb' eq_refl); apply IH; auto.
    + cbn [map replace_runs]; rewrite Hd, Z.eqb_refl.
      destruct b'; [|f_equal]; apply IH; auto.
  - cbn [map replace_runs].
    destruct (Z.eqb dash (h c)); [destruct b'; [|f_equal]|f_equal]; apply IH; auto;
      discriminate.
Qed.

Lemma slugifyFilename_ascii (toLowerCase : js_string -> js_string)
    (Hlower : lower_ascii toLowerCase) (f : js_string) :
  Forall (fun c => 0 <= c < 128)%Z f ->
  slugifyFilename toLowerCase f
  = strip_dashes (replace_runs (Z.eqb dash) false (map slug_unit f)).
Proof.
  intros Hf; unfold slugifyFilename; rewrite (Hlower f Hf).
  rewrite replace_runs_space_dash;
    [| intros c Hc; destruct (slug_char c) eqn:E;
       [rewrite slug_char_not_space in Hc by exact E; discriminate | reflexivity]
     | reflexivity | auto ].
  rewrite map_map; reflexivity.
Qed.

Lemma lower_ascii_map : lower_ascii (map ascii_lower).
Proof. intros s _; reflexivity. Qed.

Lemma slugify_shape (toLowerCase : js_string -> js_string) (name : js_string) :
  let slug := slugifyFilename toLowerCase name in
  (forall c, In c slug -> slug_char c = true)
  /\ (forall a b, slug <> (a ++ [dash; dash] ++ b)%list)
  /\ (forall a, slug <> dash :: a)
  /\ (forall a, slug <> (a ++ [dash])%list).
Proof.
  cbn zeta; unfold slugifyFilename.
  set (m := map _ _).
  assert (Hm : forall c, In c m -> slug_char c = true).
  { intros c Hc; subst m; apply in_map_iff in Hc as (x & <- & _).
    destruct (slug_char x) eqn:E; [exact E|reflexivity]. }
  destruct (replace_runs_dash_shape m false) as [Hdd _].
  destruct (strip_dashes_shape _ Hdd) as (H1 & H2 & H3 & H4).
  split; [|split; [exact H1|split; assumption]].
  intros c Hc; apply H2, In_replace_runs in Hc as [Hc| ->]; [exact (Hm c Hc)|reflexivity].
Qed.

Lemma js_string_eqb_sound s : forall t, js_string_eqb s t = true -> s = t.
Proof.
  induction s as [|a s IH]; intros [|b t]; cbn; try discriminate; auto.
  intros H; apply andb_true_iff in H as [H1 H2]; apply Z.eqb_eq in H1; subst; f_equal; auto.
Qed.

Lemma ascii_lower_inv a x : ascii_lower a = x -> a = x \/ (a = x - 32 /\ 65 <= a <= 90)%Z.
Proof.
  unfold ascii_lower; destruct (Z.leb 65 a && Z.leb a 90) eqn:E; intros <-; [|auto].
  apply andb_true_iff in E as [E1 E2]; apply Z.leb_le in E1, E2; right; lia.
Qed.

(** A rejected decode: the [catch] blocks of [loadPdf] run. *)
Lemma load_rejected_step (s0 s1 : State) (j : nat) (a : Attempt) (url w : string)
    (rest0 : list Frame) (e0 : Err) :
  nth_error (threads s0) j = Some (LP_load a url w :: rest0) ->
  step s0 (Resolve j (Rejected e0)) = Some s1 ->
  uncaught s1 = uncaught s0 /\ current s1 = current s0
  /\ (a = FirstTry -> workerSrc s1 = CDN_WORKER
       /\ nth_error (threads s1) j
          = Some (LP_load Retry (download_href (els s0)) CDN_WORKER :: rest0))
  /\ (a = Retry -> status_text (els s1) = "Failed to load PDF."
       /\ console s1 = ("error", e0) :: console s0
       /\ nth_error (threads s1) j = Some (Ret Normal :: rest0)).
Proof.
  intros Hth Hstep.
  rewrite (step_resolve_eq s0 j _ rest0 (Rejected e0) (loadPdf_failed s0 a e0) Hth eq_refl)
    in Hstep.
  injection Hstep as <-.
  assert (Hj : j < List.length (threads s0)) by (apply nth_error_Some; congruence).
  destruct a; repeat split; try discriminate; cbn -[nth_error set_nth pdf_url];
    try reflexivity; apply set_nth_lookup; exact Hj.
Qed.

(** * Claims *)

(** C1 (render supersession).  Two quick clicks on "next": the call for page
    2 is still waiting for [getPage] when the call for page 3 starts, so the
    page-3 call finds no task of it to cancel; the page-2 task is stored
    later and never cancelled, and when it finishes after page 3's it paints
    page 2 and clears the status while the indicator reads "Page 3 / 3". *)
Theorem fast_paging_stale_render_paints :
  match run (init els0) fast_paging with
  | Some s1 =>
      page (current s1) = 3%Z
      /\ match run s1 fast_paging_rest with
         | Some s2 =>
             task_cancelled s2 1 = false
             /\ canvas_image (els s2) = Some (doc_id doc_a, 2%Z)
             /\ page (current s2) = 3%Z
             /\ indicator_text (els s2) = "Page 3 / 3"
         | None => False
         end
  | None => False
  end.
Proof. vm_compute. repeat split; reflexivity. Qed.

(** C2 (load supersession), counterexample.  Select A, then B; B's decode
    resolves first, then A's: the session ends with A's document under B's
    title.  And a render of A that is running when B is selected still
    completes afterwards: it paints A's page 1 and clears the "Loading…"
    status of B's load. *)
Lemma load_race_keeps_stale_document :
  option_map (fun s => (doc (current s), item (current s), title_text (els s)))
    (run (init els0)
       [Select item_a; Select item_b; Resolve 1 (Resolved_doc doc_b);
        Resolve 0 (Resolved_doc doc_a)])
  = Some (Some doc_a, Some item_b, title item_b)
  /\ option_map (fun s => (doc (current s), item (current s), canvas_image (els s),
                          status_text (els s)))
    (run (init els0)
       [Select item_a; Resolve 0 (Resolved_doc doc_a); Resolve 0 (Resolved_page page_a);
        Select item_b; Resolve 0 Resolved_done])
  = Some (None, Some item_b, Some (doc_id doc_a, 1%Z), "").
Proof. split; vm_compute; reflexivity. Qed.

(** C2 (amended).  A decode that resolves installs its document, page count
    and page 1 whatever was selected since, leaving [current.item] and the
    title as they are, and starts rendering page 1 of that document (the
    call waits for [getPage(1)] under "Rendering…"); starting a load cancels
    no render task. *)
Theorem load_resolution_not_superseded (s s' : State) (i : nat) (a : Attempt)
    (url w : string) (rest : list Frame) (d : PDFDocument) (it : Item) :
  nth_error (threads s) i = Some (LP_load a url w :: rest) ->
  step s (Resolve i (Resolved_doc d)) = Some s' ->
  doc (current s') = Some d /\ pages (current s') = numPages d
  /\ page (current s') = 1%Z /\ item (current s') = item (current s)
  /\ title_text (els s') = title_text (els s)
  /\ renderTask (current (call_loadPdf s it)) = renderTask (current s)
  /\ tasks (call_loadPdf s it) = tasks s
  /\ nth_error (threads s') i = Some (RP_getPage d 1 :: LP_render a :: rest)
  /\ status_text (els s') = "Rendering…".
Proof.
  intros Hth Hstep.
  rewrite (step_resolve_eq s i _ rest (Resolved_doc d) (loadPdf_loaded s a d) Hth eq_refl)
    in Hstep.
  injection Hstep as <-; repeat split; try field_fact.
  cbn -[nth_error set_nth pdf_url]; apply set_nth_lookup.
  apply nth_error_Some; congruence.
Qed.

Lemma load_resolution_not_superseded_witness :
  nth_error (threads (state_of (run (init els0) [Select item_a; Select item_b]))) 0
    = Some [LP_load FirstTry (pdf_url (fileName item_a)) LOCAL_WORKER; Handler]
  /\ step (state_of (run (init els0) [Select item_a; Select item_b]))
       (Resolve 0 (Resolved_doc doc_a))
     = Some (state_of (run (init els0)
                [Select item_a; Select item_b; Resolve 0 (Resolved_doc doc_a)]))
  /\ doc (current (state_of (run (init els0)
                [Select item_a; Select item_b; Resolve 0 (Resolved_doc doc_a)])))
     = Some doc_a.
Proof.
  assert (H1 : nth_error (threads (state_of (run (init els0) [Select item_a; Select item_b]))) 0
    = Some [LP_load FirstTry (pdf_url (fileName item_a)) LOCAL_WORKER; Handler])
    by (vm_compute; reflexivity).
  assert (H2 : step (state_of (run (init els0) [Select item_a; Select item_b]))
       (Resolve 0 (Resolved_doc doc_a))
     = Some (state_of (run (init els0)
                [Select item_a; Select item_b; Resolve 0 (Resolved_doc doc_a)])))
    by (vm_compute; reflexivity).
  split; [exact H1|]; split; [exact H2|].
  exact (proj1 (load_resolution_not_superseded _ _ 0 FirstTry _ _ _ doc_a item_b H1 H2)).
Defined.

(** C3 (worker fallback), counterexample.  After a first double failure the
    worker source is already the CDN one; a new load that fails is retried
    all the same. *)
Lemma fallback_retries_on_cdn_worker :
  option_map workerSrc
    (run (init els0)
       [Select item_a; Resolve 0 (Rejected load_error); Resolve 0 (Rejected load_error);
        Resume 0])
  = Some CDN_WORKER
  /\ option_map (fun s => nth_error (threads s) 1)
    (run (init els0)
       [Select item_a; Resolve 0 (Rejected load_error); Resolve 0 (Rejected load_error);
        Resume 0; Select item_b; Resolve 1 (Rejected load_error)])
  = Some (Some [LP_load Retry (pdf_url (fileName item_b)) CDN_WORKER; Handler]).
Proof. split; vm_compute; reflexivity. Qed.

(** C3 (amended).  Whatever the worker source, a [loadPdf] call whose first
    attempt throws (the decode, or the fetch of page 1) switches to the CDN
    worker and loads once more; when that load and its page-1 render succeed
    the call ends with the CDN worker, the document open and an empty
    status. *)
Theorem loadPdf_fallback_once (s : State) (it : Item) (e : Err) (d d0 : PDFDocument)
    (pg : PDFPage) :
  let i := List.length (threads s) in
  let retrying := [LP_load Retry (pdf_url (fileName it)) CDN_WORKER; Handler] in
  (exists s1, run s [Select it; Resolve i (Rejected e)] = Some s1
     /\ workerSrc s1 = CDN_WORKER /\ nth_error (threads s1) i = Some retrying)
  /\ (exists s1, run s [Select it; Resolve i (Resolved_doc d0); Resolve i (Rejected e);
                        Resume i] = Some s1
     /\ workerSrc s1 = CDN_WORKER /\ nth_error (threads s1) i = Some retrying)
  /\ (exists s2, run s [Select it; Resolve i (Rejected e); Resolve i (Resolved_doc d);
                        Resolve i (Resolved_page pg); Resolve i Resolved_done;
                        Resume i; Resume i] = Some s2
     /\ workerSrc s2 = CDN_WORKER /\ doc (current s2) = Some d
     /\ status_text (els s2) = "" /\ nth_error (threads s2) i = Some []).
Proof.
  cbn zeta; split; [|split]; repeat step1;
    (eexists; split; [reflexivity|]); repeat split; field_fact.
Qed.

(** C4 (double load failure).  From any state, a load whose decode fails
    with the local worker and again with the CDN worker ends with no
    document, the load-failure status, both pager buttons disabled, the CDN
    worker, and the call finished with no further attempt. *)
Theorem double_load_failure (s : State) (it : Item) (e1 e2 : Err) :
  let i := List.length (threads s) in
  exists s', run s [Select it; Resolve i (Rejected e1); Resolve i (Rejected e2); Resume i]
             = Some s'
    /\ doc (current s') = None
    /\ status_text (els s') = "Failed to load PDF."
    /\ prev_disabled (els s') = true /\ next_disabled (els s') = true
    /\ workerSrc s' = CDN_WORKER
    /\ nth_error (threads s') i = Some []
    /\ List.length (threads s') = S i.
Proof.
  cbn zeta; repeat step1; (eexists; split; [reflexivity|]).
  repeat split; try field_fact.
  cbn -[nth_error set_nth pdf_url]; rewrite ?set_nth_snoc, length_app; cbn; lia.
Qed.

(** C5 (failure containment), counterexample.  A render task that fails
    leaves [current.renderTask] set (nothing ever clears it); and a page that
    cannot be fetched after a click on "next" rejects the listener's promise
    with nobody to catch it, leaving the status at "Rendering…". *)
Lemma render_failure_keeps_task :
  option_map (fun s => (renderTask (current s), status_text (els s)))
    (run (init els0)
       [Select item_a; Resolve 0 (Resolved_doc doc_a); Resolve 0 (Resolved_page page_a);
        Resolve 0 (Rejected render_error)])
  = Some (Some 0, "Failed to render page.")
  /\ option_map (fun s => (uncaught s, status_text (els s)))
    (run (init els0) (open_a ++ [ClickNext; Resolve 1 (Rejected render_error); Resume 1])%list)
  = Some ([render_error], "Rendering…").
Proof. split; vm_compute; reflexivity. Qed.

(** C5 (amended).  A failed rasterization is caught in [renderPage]: the
    status shows the render-failure message, the cause is logged, [current]
    (document, page, and the render task, which stays set) and the pager
    buttons are unchanged, nothing is left uncaught and the call completes
    normally.  No step ever clears a set [renderTask].  A failed decode is
    caught in [loadPdf]: nothing is left uncaught and [current] is unchanged;
    the first failure is retried with the CDN worker, the second is logged,
    shows the load-failure message and ends the call normally. *)
Theorem render_failure_contained (s s' : State) (i t : nat) (d : PDFDocument) (n : Z)
    (rest : list Frame) (e : Err) :
  nth_error (threads s) i = Some (RP_task t d n :: rest) ->
  is_cancelled_exception e = false ->
  step s (Resolve i (Rejected e)) = Some s' ->
  status_text (els s') = "Failed to render page."
  /\ console s' = ("error", e) :: console s
  /\ current s' = current s
  /\ prev_disabled (els s') = prev_disabled (els s)
  /\ next_disabled (els s') = next_disabled (els s)
  /\ uncaught s' = uncaught s
  /\ nth_error (threads s') i = Some (Ret Normal :: rest)
  /\ (forall (ev : Event) (s1 s2 : State), step s1 ev = Some s2 ->
        renderTask (current s1) <> None -> renderTask (current s2) <> None)
  /\ (forall (s0 s1 : State) (j : nat) (a : Attempt) (url w : string)
        (rest0 : list Frame) (e0 : Err),
        nth_error (threads s0) j = Some (LP_load a url w :: rest0) ->
        step s0 (Resolve j (Rejected e0)) = Some s1 ->
        uncaught s1 = uncaught s0 /\ current s1 = current s0
        /\ (a = FirstTry -> workerSrc s1 = CDN_WORKER
             /\ nth_error (threads s1) j
                = Some (LP_load Retry (download_href (els s0)) CDN_WORKER :: rest0))
        /\ (a = Retry -> status_text (els s1) = "Failed to load PDF."
             /\ console s1 = ("error", e0) :: console s0
             /\ nth_error (threads s1) j = Some (Ret Normal :: rest0))).
Proof.
  intros Hth He Hstep.
  destruct (task_rejected_step s s' i t d n rest e Hth Hstep) as [_ ->].
  unfold renderPage_task_failed; rewrite He.
  do 7 (split; [cbn; try reflexivity|]).
  - rewrite set_nth_lookup; [reflexivity|].
    apply nth_error_Some; congruence.
  - split; [intros ev s1 s2; apply step_keeps_renderTask | exact load_rejected_step].
Qed.

Lemma render_failure_contained_witness :
  nth_error (threads s_task_running) 0
    = Some [RP_task 0 doc_a 1; LP_render FirstTry; Handler]
  /\ is_cancelled_exception render_error = false
  /\ step s_task_running (Resolve 0 (Rejected render_error)) = Some s_task_failed
  /\ status_text (els s_task_failed) = "Failed to render page.".
Proof.
  assert (H1 : nth_error (threads s_task_running) 0
    = Some [RP_task 0 doc_a 1; LP_render FirstTry; Handler]) by (vm_compute; reflexivity).
  assert (H2 : is_cancelled_exception render_error = false) by reflexivity.
  assert (H3 : step s_task_running (Resolve 0 (Rejected render_error)) = Some s_task_failed)
    by (vm_compute; reflexivity).
  split; [exact H1|]; split; [exact H2|]; split; [exact H3|].
  exact (proj1 (render_failure_contained _ _ 0 0 doc_a 1 _ render_error H1 H2 H3)).
Defined.

(** C6 (renderPage success).  With a document open, a call
    [renderPage(n)] whose page fetch and rasterization succeed (and nothing
    else runs in between) ends with [current.page = n] and an empty
    status. *)
Theorem renderPage_success_postcondition (s : State) (d : PDFDocument) (n : Z)
    (pg : PDFPage) :
  doc (current s) = Some d -> (1 <= n <= pages (current s))%Z ->
  let i := List.length (threads s) in
  exists s', run (call_renderPage s n) [Resolve i (Resolved_page pg); Resolve i Resolved_done]
             = Some s'
    /\ page (current s') = n /\ status_text (els s') = "".
Proof.
  intros Hd _; cbn zeta.
  unfold call_renderPage, renderPage; rewrite Hd.
  repeat step1; (eexists; split; [reflexivity|]); split; field_fact.
Qed.

Lemma renderPage_success_postcondition_witness :
  doc (current s_open_a) = Some doc_a /\ (1 <= 2 <= pages (current s_open_a))%Z
  /\ exists s', run (call_renderPage s_open_a 2)
                  [Resolve (List.length (threads s_open_a)) (Resolved_page page_a);
                   Resolve (List.length (threads s_open_a)) Resolved_done] = Some s'
       /\ page (current s') = 2%Z /\ status_text (els s') = "".
Proof.
  assert (H1 : doc (current s_open_a) = Some doc_a) by (vm_compute; reflexivity).
  assert (H2 : (1 <= 2 <= pages (current s_open_a))%Z)
    by (vm_compute; split; intro H; discriminate H).
  split; [exact H1|]; split; [exact H2|].
  exact (renderPage_success_postcondition s_open_a doc_a 2 page_a H1 H2).
Defined.

(** C7 (pager state), code bug.  [loadPdf] empties [current.doc] and disables
    the buttons but never calls [updatePager]: after a 3-page document is
    opened and another one is selected, no document is active while the
    indicator still shows "Page 1 / 3" instead of the placeholder. *)
Lemma indicator_stale_during_load :
  option_map (fun s => (doc (current s), indicator_text (els s)))
    (run (init els0) (open_a ++ [Select item_b])%list)
  = Some (None, "Page 1 / 3").
Proof. vm_compute; reflexivity. Qed.

(** Pager state.  In every reachable state: while a document is open,
    "previous" is enabled iff [page > 1], "next" iff [page < pages], and the
    indicator reads "Page page / pages"; while no document is open after a
    load has started, both buttons are disabled. *)
Theorem pager_controls_consistent (e0 : Els) (evs : list Event) (s : State) :
  run (init e0) evs = Some s ->
  (forall d, doc (current s) = Some d ->
     prev_disabled (els s) = negb (Z.gtb (page (current s)) 1)
     /\ next_disabled (els s) = negb (Z.ltb (page (current s)) (pages (current s)))
     /\ indicator_text (els s) = page_indicator (page (current s)) (pages (current s)))
  /\ (doc (current s) = None -> item (current s) <> None ->
      prev_disabled (els s) = true /\ next_disabled (els s) = true).
Proof.
  intros Hrun.
  pose proof (run_pager_inv _ _ _ (init_pager_inv e0) Hrun) as P.
  unfold pager_inv in P.
  destruct (doc (current s)); split; intros; try discriminate; auto.
Qed.

Lemma pager_controls_consistent_witness :
  run (init els0) open_a = Some s_open_a
  /\ prev_disabled (els s_open_a) = negb (Z.gtb (page (current s_open_a)) 1).
Proof.
  assert (H : run (init els0) open_a = Some s_open_a) by (vm_compute; reflexivity).
  split; [exact H|].
  exact (proj1 (proj1 (pager_controls_consistent els0 open_a s_open_a H) doc_a
                 (eq_refl : doc (current s_open_a) = Some doc_a))).
Defined.

(** C8 (render outcome).  When the promise of a render task rejects: with a
    [RenderingCancelledException] nothing but the call's frames changes (no
    status, no log); with any other error the status shows the render
    failure, the cause is logged and [current] is unchanged. *)
Theorem render_outcome_discrimination (s s' : State) (i t : nat) (d : PDFDocument)
    (n : Z) (rest : list Frame) (e : Err) :
  nth_error (threads s) i = Some (RP_task t d n :: rest) ->
  step s (Resolve i (Rejected e)) = Some s' ->
  (is_cancelled_exception e = true ->
     els s' = els s /\ console s' = console s /\ current s' = current s
     /\ uncaught s' = uncaught s)
  /\ (is_cancelled_exception e = false ->
     status_text (els s') = "Failed to render page."
     /\ console s' = ("error", e) :: console s /\ current s' = current s
     /\ uncaught s' = uncaught s).
Proof.
  intros Hth Hstep.
  destruct (task_rejected_step s s' i t d n rest e Hth Hstep) as [_ ->].
  unfold renderPage_task_failed.
  split; intros He; rewrite He; repeat split.
Qed.

Lemma render_outcome_discrimination_witness :
  nth_error (threads s_task_running) 0
    = Some [RP_task 0 doc_a 1; LP_render FirstTry; Handler]
  /\ step s_task_running (Resolve 0 (Rejected render_error)) = Some s_task_failed
  /\ console s_task_failed = ("error", render_error) :: console s_task_running.
Proof.
  assert (H1 : nth_error (threads s_task_running) 0
    = Some [RP_task 0 doc_a 1; LP_render FirstTry; Handler]) by (vm_compute; reflexivity).
  assert (H3 : step s_task_running (Resolve 0 (Rejected render_error)) = Some s_task_failed)
    by (vm_compute; reflexivity).
  split; [exact H1|]; split; [exact H3|].
  exact (proj1 (proj2 (proj2 (render_outcome_discrimination _ _ 0 0 doc_a 1 _ render_error
                                H1 H3) eq_refl))).
Defined.

(** C9 (page range).  In every state reached while pdf.js hands out
    documents of at least one page, an open document has
    [1 <= page <= pages]; a click on a disabled button changes nothing. *)
Theorem page_range_invariant (e0 : Els) (evs : list Event) (s : State) :
  Forall doc_nonempty_event evs ->
  run (init e0) evs = Some s ->
  (doc (current s) <> None -> (1 <= page (current s) <= pages (current s))%Z)
  /\ (prev_disabled (els s) = true -> step s ClickPrev = Some s)
  /\ (next_disabled (els s) = true -> step s ClickNext = Some s).
Proof.
  intros Hne Hrun.
  split; [|split; intros Hdis; cbn [step]; rewrite Hdis; reflexivity].
  exact (run_range_inv _ _ _ (init_pager_inv e0) (init_range_inv e0) Hne Hrun).
Qed.

Lemma page_range_invariant_witness :
  Forall doc_nonempty_event open_a /\ run (init els0) open_a = Some s_open_a
  /\ (1 <= page (current s_open_a) <= pages (current s_open_a))%Z.
Proof.
  assert (H1 : Forall doc_nonempty_event open_a)
    by (repeat constructor; cbn; lia).
  assert (H2 : run (init els0) open_a = Some s_open_a) by (vm_compute; reflexivity).
  split; [exact H1|]; split; [exact H2|].
  apply (proj1 (page_range_invariant els0 open_a s_open_a H1 H2)).
  vm_compute; discriminate.
Defined.

(** C10 (renderPage without a document).  With no document open,
    [renderPage(n)] returns at once and changes nothing: no task is
    cancelled, [current] and the DOM stay as they are. *)
Theorem renderPage_without_doc_noop (s : State) (n : Z) :
  doc (current s) = None ->
  renderPage s n = (s, [Ret Normal])
  /\ current (call_renderPage s n) = current s
  /\ els (call_renderPage s n) = els s
  /\ tasks (call_renderPage s n) = tasks s.
Proof.
  intros Hd; unfold call_renderPage, renderPage; rewrite Hd.
  repeat split.
Qed.

Lemma renderPage_without_doc_noop_witness :
  doc (current (init els0)) = None /\ renderPage (init els0) 2 = (init els0, [Ret Normal]).
Proof.
  split; [reflexivity|].
  exact (proj1 (renderPage_without_doc_noop (init els0) 2 eq_refl)).
Defined.

(** * Further properties of the code *)

(** The title and the download link always belong to the document last
    selected in the list: [loadPdf] sets them together with [current.item]
    and nothing else writes them ([loadPdf], lines 85-92). *)
Theorem header_matches_selection (e0 : Els) (evs : list Event) (s : State) :
  run (init e0) evs = Some s ->
  forall it, item (current s) = Some it ->
    title_text (els s) = title it /\ download_href (els s) = pdf_url (fileName it).
Proof.
  intros Hrun.
  apply (run_preserves selection_inv step_selection_inv evs (init e0) s); [|exact Hrun].
  intros it H; discriminate H.
Qed.

Lemma header_matches_selection_witness :
  run (init els0) open_a = Some s_open_a /\ item (current s_open_a) = Some item_a
  /\ title_text (els s_open_a) = title item_a.
Proof.
  assert (H1 : run (init els0) open_a = Some s_open_a) by (vm_compute; reflexivity).
  assert (H2 : item (current s_open_a) = Some item_a) by (vm_compute; reflexivity).
  split; [exact H1|]; split; [exact H2|].
  exact (proj1 (header_matches_selection els0 open_a s_open_a H1 item_a H2)).
Defined.

(** Once a document has been selected, the download link is disabled exactly
    while no document is open: [setControlsEnabled(false)] when a load
    starts, [setControlsEnabled(true)] when its decode resolves. *)
Theorem download_enabled_iff_document (e0 : Els) (evs : list Event) (s : State) :
  run (init e0) evs = Some s -> item (current s) <> None ->
  download_disabled (els s) = match doc (current s) with Some _ => false | None => true end.
Proof.
  intros Hrun.
  apply (run_preserves download_inv step_download_inv evs (init e0) s); [|exact Hrun].
  intros H; exfalso; apply H; reflexivity.
Qed.

Lemma download_enabled_iff_document_witness :
  run (init els0) open_a = Some s_open_a /\ download_disabled (els s_open_a) = false.
Proof.
  assert (H1 : run (init els0) open_a = Some s_open_a) by (vm_compute; reflexivity).
  assert (H2 : item (current s_open_a) <> None) by (vm_compute; discriminate).
  split; [exact H1|].
  rewrite (download_enabled_iff_document els0 open_a s_open_a H1 H2).
  vm_compute; reflexivity.
Defined.

(** While a document is open, [current.pages] is its page count and the meta
    line reads "N page(s)" for it. *)
Theorem meta_matches_document (e0 : Els) (evs : list Event) (s : State) :
  run (init e0) evs = Some s ->
  forall d, doc (current s) = Some d ->
    pages (current s) = numPages d /\ meta_text (els s) = js_number (numPages d) ++ " page(s)".
Proof.
  intros Hrun.
  apply (run_preserves meta_inv step_meta_inv evs (init e0) s); [|exact Hrun].
  intros d H; discriminate H.
Qed.

Lemma meta_matches_document_witness :
  run (init els0) open_a = Some s_open_a /\ doc (current s_open_a) = Some doc_a
  /\ meta_text (els s_open_a) = "3 page(s)".
Proof.
  assert (H1 : run (init els0) open_a = Some s_open_a) by (vm_compute; reflexivity).
  assert (H2 : doc (current s_open_a) = Some doc_a) by (vm_compute; reflexivity).
  split; [exact H1|]; split; [exact H2|].
  exact (proj2 (meta_matches_document els0 open_a s_open_a H1 doc_a H2)).
Defined.

(** Along any run, the worker source either stays what it was or becomes the
    CDN worker: it never returns to the local worker. *)
Theorem workerSrc_only_falls_back (evs : list Event) (s s' : State) :
  run s evs = Some s' -> workerSrc s' = workerSrc s \/ workerSrc s' = CDN_WORKER.
Proof.
  intros Hrun.
  apply (run_preserves (fun x => workerSrc x = workerSrc s \/ workerSrc x = CDN_WORKER))
    with (evs := evs) (s := s); [|left; reflexivity|exact Hrun].
  intros x x' ev Hx Hstep.
  destruct (step_workerSrc x x' ev Hstep) as [-> | ->]; auto.
Qed.

Lemma workerSrc_only_falls_back_witness :
  run (init els0) [Select item_a; Resolve 0 (Rejected load_error)] = Some s_fallback
  /\ (workerSrc s_fallback = LOCAL_WORKER \/ workerSrc s_fallback = CDN_WORKER).
Proof.
  assert (H : run (init els0) [Select item_a; Resolve 0 (Rejected load_error)] = Some s_fallback)
    by (vm_compute; reflexivity).
  split; [exact H|].
  exact (workerSrc_only_falls_back _ _ _ H).
Defined.

(** [loadPdf] catches every failure of its load and of its page-1 render: a
    session in which only the document list is clicked never leaves a
    promise rejection unhandled. *)
Theorem selection_session_no_uncaught (e0 : Els) (evs : list Event) (s : State) :
  Forall (fun ev => no_pager_click ev = true) evs ->
  run (init e0) evs = Some s ->
  uncaught s = [].
Proof.
  intros Hevs Hrun.
  exact (proj2 (run_load_inv evs (init e0) s Hevs (Forall_nil _) Hrun)).
Qed.

Lemma selection_session_no_uncaught_witness :
  Forall (fun ev => no_pager_click ev = true) open_a
  /\ run (init els0) open_a = Some s_open_a /\ uncaught s_open_a = [].
Proof.
  assert (H1 : Forall (fun ev => no_pager_click ev = true) open_a)
    by (repeat constructor).
  assert (H2 : run (init els0) open_a = Some s_open_a) by (vm_compute; reflexivity).
  split; [exact H1|]; split; [exact H2|].
  exact (selection_session_no_uncaught els0 open_a s_open_a H1 H2).
Defined.

(** After [renderList] and any clicks on the list's buttons, there is a button
    per entry with its title, exactly the last clicked one is marked
    [active], and the session is the one obtained by selecting the clicked
    entries in order. *)
Theorem list_clicks_mark_last (items : list Item) (ks : list nat) (k : nat) (s : State)
    (p' : list ListEntry * State) :
  click_run items (renderList (Some items), s) (ks ++ [k])%list = Some p' ->
  List.length (fst p') = List.length items
  /\ (forall j it, nth_error items j = Some it ->
        nth_error (fst p') j = Some (ListButton (title it) (Nat.eqb j k)))
  /\ exists its, Forall2 (fun k it => nth_error items k = Some it) (ks ++ [k])%list its
       /\ run s (map Select its) = Some (snd p').
Proof.
  intros H.
  destruct (click_run_spec _ _ _ _ _ H) as (H1 & H2).
  rewrite fold_mark_snoc in H1.
  destruct items as [|it0 items'].
  { destruct H2 as (its & Hf & _).
    apply Forall2_app_inv_l in Hf as (l1 & l2 & _ & Hf & _).
    inversion Hf as [|? ? ? ? Hk]; subst; destruct k; discriminate Hk. }
  assert (Hdom : map deactivate (renderList (Some (it0 :: items')))
                 = map (fun it => ListButton (title it) false) (it0 :: items')).
  { cbn [renderList]; rewrite map_map; reflexivity. }
  unfold mark in H1; rewrite Hdom in H1.
  split; [|split; [|exact H2]].
  - rewrite H1; clear; generalize (it0 :: items') as l; intros l.
    revert k; induction l; intros [|k]; cbn; auto.
    rewrite length_map; reflexivity.
  - intros j it Hj; rewrite H1, nth_error_update_nth, nth_error_map, Hj; cbn.
    destruct (Nat.eqb j k); reflexivity.
Qed.

Lemma list_clicks_mark_last_witness :
  exists p', click_run [item_a; item_b] (renderList (Some [item_a; item_b]), init els0)
                ([0] ++ [1])%list = Some p'
    /\ nth_error (fst p') 1 = Some (ListButton (title item_b) true).
Proof.
  destruct (click_run [item_a; item_b] (renderList (Some [item_a; item_b]), init els0)
              ([0] ++ [1])%list) as [p'|] eqn:H.
  - exists p'; split; [reflexivity|].
    exact (proj1 (proj2 (list_clicks_mark_last _ _ _ _ _ H)) 1 item_b eq_refl).
  - vm_compute in H; discriminate H.
Defined.

(** Distinct file names give distinct download links ([encodeURIComponent]
    loses no information). *)
Theorem pdf_url_distinct (f1 f2 : string) :
  f1 <> f2 -> pdf_url f1 <> pdf_url f2.
Proof.
  intros Hne Heq; apply Hne.
  apply encodeURIComponent_inj, (string_app_cancel "./pdfs/"), Heq.
Qed.

Lemma pdf_url_distinct_witness :
  fileName item_a <> fileName item_b /\ pdf_url (fileName item_a) <> pdf_url (fileName item_b).
Proof.
  assert (H : fileName item_a <> fileName item_b) by discriminate.
  split; [exact H|].
  exact (pdf_url_distinct _ _ H).
Defined.

(** [slugifyFilename] (scripts/build.mjs) yields only the characters
    [a-z0-9._-], never two '-' in a row, and no '-' at either end, whatever
    [toLowerCase] does beyond ASCII. *)
Theorem slugifyFilename_shape (toLowerCase : js_string -> js_string) (name : js_string) :
  let slug := slugifyFilename toLowerCase name in
  (forall c, In c slug -> slug_char c = true)
  /\ (forall a b, slug <> (a ++ [dash; dash] ++ b)%list)
  /\ (forall a, slug <> dash :: a)
  /\ (forall a, slug <> (a ++ [dash])%list).
Proof. exact (slugify_shape toLowerCase name). Qed.

(** [slugifyFilename] is idempotent when [toLowerCase] lower-cases ASCII
    strings as JS does. *)
Theorem slugifyFilename_idempotent (toLowerCase : js_string -> js_string)
    (Hlower : lower_ascii toLowerCase) (name : js_string) :
  slugifyFilename toLowerCase (slugifyFilename toLowerCase name)
  = slugifyFilename toLowerCase name.
Proof.
  destruct (slugify_shape toLowerCase name) as (Hc & Hdd & Hl & Ht).
  set (t := slugifyFilename toLowerCase name) in *.
  assert (Hdd' : no_dd t) by (intros a b; exact (Hdd a b)).
  unfold slugifyFilename at 1.
  rewrite (Hlower t).
  2: { apply Forall_forall; intros c Hin; exact (proj1 (slug_char_ascii c (Hc c Hin))). }
  rewrite (map_ext_in ascii_lower id t) by (intros c Hin; exact (proj2 (slug_char_ascii c (Hc c Hin)))).
  rewrite map_id.
  rewrite (replace_runs_id is_js_space false t) by (intros c Hin; apply slug_char_not_space, Hc, Hin).
  rewrite (map_ext_in _ id t) by (intros c Hin; unfold id; rewrite (Hc c Hin); reflexivity).
  rewrite map_id.
  rewrite replace_runs_dash_id by (assumption || discriminate).
  destruct t as [|c r] eqn:Et; [reflexivity|].
  unfold strip_dashes.
  destruct (Z.eqb c dash) eqn:Ec.
  - apply Z.eqb_eq in Ec; subst c; exfalso; exact (Hl r eq_refl).
  - destruct (drop_trailing_dash_spec (c :: r)) as [(r' & Er & _)|(-> & _)];
      [exfalso; exact (Ht r' Er)|reflexivity].
Qed.

Lemma slugifyFilename_idempotent_witness :
  slugifyFilename (map ascii_lower) (slugifyFilename (map ascii_lower) (units_of_string "  My (Report) 2024.PDF"))
  = slugifyFilename (map ascii_lower) (units_of_string "  My (Report) 2024.PDF")
  /\ slugifyFilename (map ascii_lower) (units_of_string "  My (Report) 2024.PDF")
     = units_of_string "my-report-2024.pdf".
Proof.
  split; [apply (slugifyFilename_idempotent (map ascii_lower) lower_ascii_map)|].
  vm_compute; reflexivity.
Defined.

(** Every output file name of the build ends in ".pdf" and consists of
    [a-z0-9._-] only, so the viewer's download link for it is "./pdfs/"
    followed by the name unchanged. *)
Theorem outName_url_safe (toLowerCase : js_string -> js_string) (f : js_string) :
  let o := outName toLowerCase f in
  endsWith o dot_pdf = true
  /\ (forall c, In c o -> slug_char c = true)
  /\ pdf_url (string_of_units o) = "./pdfs/" ++ string_of_units o.
Proof.
  cbn zeta.
  assert (Hc : forall c, In c (outName toLowerCase f) -> slug_char c = true).
  { destruct (slugify_shape toLowerCase f) as (Hs & _).
    unfold outName; destruct (endsWith _ dot_pdf); [exact Hs|].
    intros c Hin; apply in_app_or in Hin as [Hin|Hin]; [exact (Hs c Hin)|].
    cbn in Hin; repeat destruct Hin as [<-|Hin]; try reflexivity; destruct Hin. }
  split; [|split; [exact Hc|]].
  - unfold outName; destruct (endsWith (slugifyFilename toLowerCase f) dot_pdf) eqn:E;
      [exact E|apply endsWith_app_suffix].
  - unfold pdf_url; f_equal.
    apply encodeURIComponent_unreserved.
    unfold string_of_units; rewrite list_ascii_of_string_of_list_ascii.
    intros a Ha; apply in_map_iff in Ha as (c & <- & Hin).
    apply slug_char_unreserved, Hc, Hin.
Qed.

(** For ASCII file names, the output name only depends on the name with
    letters lower-cased, every other character outside [a-z0-9._-] turned
    into '-' and runs of '-' merged: e.g. "My Report.pdf" and
    "my-report.pdf" are both copied to "my-report.pdf", the later copy
    replacing the earlier. *)
Theorem outName_collision (toLowerCase : js_string -> js_string)
    (Hlower : lower_ascii toLowerCase) (f g : js_string) :
  Forall (fun c => 0 <= c < 128)%Z f -> Forall (fun c => 0 <= c < 128)%Z g ->
  replace_runs (Z.eqb dash) false (map slug_unit f)
  = replace_runs (Z.eqb dash) false (map slug_unit g) ->
  outName toLowerCase f = outName toLowerCase g.
Proof.
  intros Hf Hg Heq; unfold outName.
  rewrite (slugifyFilename_ascii _ Hlower f Hf), (slugifyFilename_ascii _ Hlower g Hg), Heq.
  reflexivity.
Qed.

Lemma outName_collision_witness :
  units_of_string "My Report.pdf" <> units_of_string "my-report.pdf"
  /\ outName (map ascii_lower) (units_of_string "My Report.pdf")
     = outName (map ascii_lower) (units_of_string "my-report.pdf")
  /\ outName (map ascii_lower) (units_of_string "my-report.pdf")
     = units_of_string "my-report.pdf".
Proof.
  split; [vm_compute; discriminate|].
  split; [|vm_compute; reflexivity].
  apply (outName_collision (map ascii_lower) lower_ascii_map).
  - vm_compute; repeat constructor; discriminate.
  - vm_compute; repeat constructor; discriminate.
  - vm_compute; reflexivity.
Defined.

(** For an ASCII file kept by the build's filter ([toLowerCase] then
    [endsWith('.pdf')]), the manifest title is the file name without its
    last four characters, which are ".pdf" in some letter case: the title
    never keeps the extension. *)
Theorem manifest_title_drops_extension (toLowerCase : js_string -> js_string)
    (Hlower : lower_ascii toLowerCase) (f : js_string) :
  Forall (fun c => 0 <= c < 128)%Z f -> is_pdf_file toLowerCase f = true ->
  exists ext, f = (fst (manifest_entry toLowerCase f) ++ ext)%list
    /\ map ascii_lower ext = dot_pdf.
Proof.
  intros Hf Hp; unfold is_pdf_file, endsWith in Hp; rewrite (Hlower f Hf) in Hp.
  apply andb_true_iff in Hp as [Hlen Heq].
  apply Nat.leb_le in Hlen; apply js_string_eqb_sound in Heq.
  rewrite length_map in Hlen, Heq; cbn [List.length dot_pdf] in Hlen, Heq.
  rewrite skipn_map in Heq.
  exists (skipn (List.length f - 4) f); split; [|exact Heq].
  unfold manifest_entry, strip_pdf_ext, ends_with_pdf_ci; cbn [fst].
  assert (Hl : List.length (skipn (List.length f - 4) f) = 4) by (rewrite length_skipn; lia).
  destruct (skipn (List.length f - 4) f) as [|a [|b [|c [|d [|e r]]]]] eqn:Es;
    cbn in Hl; try discriminate.
  cbn in Heq; injection Heq as Ha Hb Hc Hd.
  apply ascii_lower_inv in Ha, Hb, Hc, Hd.
  replace (Nat.leb 4 (List.length f)) with true by (symmetry; apply Nat.leb_le; lia).
  replace (Z.eqb a 46) with true by (symmetry; apply Z.eqb_eq; lia).
  replace (Z.eqb b 112 || Z.eqb b 80) with true
    by (symmetry; apply orb_true_iff; rewrite !Z.eqb_eq; lia).
  replace (Z.eqb c 100 || Z.eqb c 68) with true
    by (symmetry; apply orb_true_iff; rewrite !Z.eqb_eq; lia).
  replace (Z.eqb d 102 || Z.eqb d 70) with true
    by (symmetry; apply orb_true_iff; rewrite !Z.eqb_eq; lia).
  cbn; rewrite <- Es; symmetry; apply firstn_skipn.
Qed.

Lemma manifest_title_drops_extension_witness :
  Forall (fun c => 0 <= c < 128)%Z (units_of_string "Thesis 2024.PDF")
  /\ is_pdf_file (map ascii_lower) (units_of_string "Thesis 2024.PDF") = true
  /\ exists ext, units_of_string "Thesis 2024.PDF"
       = (fst (manifest_entry (map ascii_lower) (units_of_string "Thesis 2024.PDF")) ++ ext)%list
     /\ map ascii_lower ext = dot_pdf.
Proof.
  assert (H1 : Forall (fun c => 0 <= c < 128)%Z (units_of_string "Thesis 2024.PDF"))
    by (vm_compute; repeat constructor; discriminate).
  assert (H2 : is_pdf_file (map ascii_lower) (units_of_string "Thesis 2024.PDF") = true)
    by (vm_compute; reflexivity).
  split; [exact H1|]; split; [exact H2|].
  exact (manifest_title_drops_extension (map ascii_lower) lower_ascii_map _ H1 H2).
Defined.
